(** * Authentication brokers of the content server

    A shallow embedding of the pairing authority broker
    ([app/scripts/models/auth_brokers/pairing/authority.js]) and of the
    parts of the base authentication broker that its test-suite
    ([models/auth_brokers/base], exercised by the mocha suite
    [describe('models/auth_brokers/base')]) pins down.

    JavaScript objects are mutated in place and hooks return promises; the
    embedding threads an explicit state through a small monad whose
    results are either a normal completion or a thrown value, and records
    every effect that leaves the broker (console, channel, state machine,
    notifier) in a trace. *)

From Stdlib Require Import ZArith List String Bool Lia.
From stdpp Require Import base option list gmap strings.

Set Warnings "-register-all".

Local Open Scope string_scope.
Local Open Scope list_scope.

(** ** JavaScript values *)

(** The values that cross the broker's interfaces.  Numbers are the
    integer-valued ones plus [NaN]; an object is its list of own
    properties in insertion order. *)
Inductive value : Type :=
| VUndefined
| VNull
| VBool (b : bool)
| VNum (n : Z)
| VNaN
| VStr (s : string)
| VObj (fields : list (string * value)).

(** [ToBoolean]: what [if (v)] tests. *)
Definition truthy (v : value) : bool :=
  match v with
  | VUndefined | VNull | VNaN => false
  | VBool b => b
  | VNum n => negb (n =? 0)%Z
  | VStr s => negb (String.eqb s "")
  | VObj _ => true
  end.

Definition is_object (v : value) : bool :=
  match v with VObj _ => true | _ => false end.

(** Own-property lookup in a property list. *)
Fixpoint field_lookup (k : string) (fs : list (string * value)) : option value :=
  match fs with
  | [] => None
  | (k', v) :: rest => if String.eqb k k' then Some v else field_lookup k rest
  end.

(** [obj[k] = v] on a property list: an existing key keeps its place, a
    new key is appended. *)
Fixpoint field_store (k : string) (v : value) (fs : list (string * value))
  : list (string * value) :=
  match fs with
  | [] => [(k, v)]
  | (k', v') :: rest =>
      if String.eqb k k' then (k, v) :: rest else (k', v') :: field_store k v rest
  end.

(** Structural comparison, the reading of chai's [deepEqual] on this
    value type. *)
Fixpoint deepEqual (a b : value) : bool :=
  match a, b with
  | VUndefined, VUndefined => true
  | VNull, VNull => true
  | VBool x, VBool y => Bool.eqb x y
  | VNum x, VNum y => (x =? y)%Z
  | VNaN, VNaN => true
  | VStr x, VStr y => String.eqb x y
  | VObj fa, VObj fb =>
      (fix fields_eq (l1 l2 : list (string * value)) : bool :=
         match l1, l2 with
         | [], [] => true
         | (k1, v1) :: t1, (k2, v2) :: t2 =>
             String.eqb k1 k2 && deepEqual v1 v2 && fields_eq t1 t2
         | _, _ => false
         end) fa fb
  | _, _ => false
  end.

(** The [TypeError] raised by property access on [null]/[undefined] and
    by a strict-mode property write on a primitive. *)
Definition TypeError (msg : string) : value :=
  VObj [("name", VStr "TypeError"); ("message", VStr msg)].

(** ** Completions, promises and the effect monad *)

Inductive completion (A : Type) : Type :=
| Normal (a : A)
| Throw (e : value).
Arguments Normal {A} a.
Arguments Throw {A} e.

(** A promise is represented by the way it settles.  Task scheduling is
    collapsed: a callback chained on a settled promise runs before the
    next operation of the model starts. *)
Inductive promise (A : Type) : Type :=
| Fulfilled (a : A)
| Rejected (e : value)
| Pending.
Arguments Fulfilled {A} a.
Arguments Rejected {A} e.
Arguments Pending {A}.

Definition JS (S A : Type) : Type := S -> completion A * S.

Definition ret {S A} (a : A) : JS S A := fun s => (Normal a, s).

Definition throw {S A} (e : value) : JS S A := fun s => (Throw e, s).

Definition bind {S A B} (m : JS S A) (k : A -> JS S B) : JS S B :=
  fun s =>
    match m s with
    | (Normal a, s') => k a s'
    | (Throw e, s') => (Throw e, s')
    end.

Definition gets {S A} (f : S -> A) : JS S A := fun s => (Normal (f s), s).

Definition modify {S} (f : S -> S) : JS S unit := fun s => (Normal tt, f s).

Notation "'let*' x ':=' m 'in' k" := (bind m (fun x => k))
  (at level 10, x name, m at level 100, k at level 200).
Notation "m '>>' k" := (bind m (fun _ => k))
  (at level 190, right associativity).

(** [Promise.resolve().then(() => body)]: the body runs in its own job; a
    value or promise it returns settles the result, a throw rejects it.
    The caller receives the promise, never the exception. *)
Definition promise_job {S A} (body : JS S (promise A)) : JS S (promise A) :=
  fun s =>
    match body s with
    | (Normal p, s') => (Normal p, s')
    | (Throw e, s') => (Normal (Rejected e), s')
    end.

(** [p.then(onFulfilled)] *)
Definition promise_then {S A B} (p : promise A) (onFulfilled : A -> JS S (promise B))
  : JS S (promise B) :=
  match p with
  | Fulfilled a => promise_job (onFulfilled a)
  | Rejected e => ret (Rejected e)
  | Pending => ret Pending
  end.

(** [p.then(onFulfilled, onRejected)] *)
Definition promise_then2 {S A B} (p : promise A)
    (onFulfilled : A -> JS S (promise B)) (onRejected : value -> JS S (promise B))
  : JS S (promise B) :=
  match p with
  | Fulfilled a => promise_job (onFulfilled a)
  | Rejected e => promise_job (onRejected e)
  | Pending => ret Pending
  end.

(** [v[k]] read *)
Definition get_prop {S} (v : value) (k : string) : JS S value :=
  match v with
  | VUndefined | VNull => throw (TypeError "cannot read property of null or undefined")
  | VObj fs => ret (default VUndefined (field_lookup k fs))
  | _ => ret VUndefined
  end.

(** [v[k] = x] in strict code; the updated object is returned because the
    embedding has no heap: the caller's reference and the callee's are the
    same object, so the updated value is what both see afterwards. *)
Definition set_prop {S} (v : value) (k : string) (x : value) : JS S value :=
  match v with
  | VObj fs => ret (VObj (field_store k x fs))
  | _ => throw (TypeError "cannot create property on a non-object")
  end.

(** What the channel does with one call. *)
Inductive chan_outcome : Type :=
| Resolves (response : value)
| Rejects (err : value)
| ThrowsSync (err : value)
| NeverSettles.

Definition next_outcome (script : list chan_outcome) : chan_outcome * list chan_outcome :=
  match script with
  | [] => (NeverSettles, [])
  | o :: rest => (o, rest)
  end.

(** ** The pairing authority broker *)

Module Authority.

(** [this._notificationChannel.COMMANDS]: the channel library is not part
    of these sources, so the command constants are kept symbolic. *)
Inductive command : Type :=
| PAIR_HEARTBEAT
| PAIR_REQUEST_SUPPLICANT_METADATA
| PAIR_AUTHORIZE
| PAIR_DECLINE
| PAIR_COMPLETE
| OtherCommand (name : string).

Definition command_label (c : command) : value :=
  match c with
  | PAIR_HEARTBEAT => VStr "PAIR_HEARTBEAT"
  | PAIR_REQUEST_SUPPLICANT_METADATA => VStr "PAIR_REQUEST_SUPPLICANT_METADATA"
  | PAIR_AUTHORIZE => VStr "PAIR_AUTHORIZE"
  | PAIR_DECLINE => VStr "PAIR_DECLINE"
  | PAIR_COMPLETE => VStr "PAIR_COMPLETE"
  | OtherCommand n => VStr n
  end.

(** Effects that leave the broker, oldest first in a trace. *)
Inductive event : Type :=
| ConsoleLog (args : list value)
| ChannelRequest (message : command) (data : value)
| ChannelSend (message : command) (data : value)
| StateMachineCall (method : string) (args : list value)
| StateMachineTransition (payload : value)
| NotifierTrigger (name : string).

(** The broker object: its Backbone attributes, the timer handle field
    and the relier's channel id. *)
Record AuthorityBroker : Type := {
  attributes : gmap string value;
  _heartbeatInterval : option nat;
  relier_channelId : value
}.

(** The broker together with the host it runs in: the live interval
    timers (every one of them was created by [startHeartbeat], so each
    fires [() => this.heartbeat()]), the next fresh timer handle, what
    the channel will answer to the coming calls, and the trace. *)
Record world : Type := {
  broker : AuthorityBroker;
  intervals : list nat;
  next_handle : nat;
  channel_script : list chan_outcome;
  trace : list event
}.

Definition with_broker (f : AuthorityBroker -> AuthorityBroker) (w : world) : world :=
  {| broker := f (broker w); intervals := intervals w; next_handle := next_handle w;
     channel_script := channel_script w; trace := trace w |}.

Definition emit (e : event) : JS world unit :=
  modify (fun w =>
    {| broker := broker w; intervals := intervals w; next_handle := next_handle w;
       channel_script := channel_script w; trace := trace w ++ [e] |}).

Definition console_log (args : list value) : JS world unit := emit (ConsoleLog args).

(** [this.get(name)] *)
Definition this_get (name : string) : JS world value :=
  gets (fun w => default VUndefined (attributes (broker w) !! name)).

(** [this.set(name, v)] *)
Definition this_set (name : string) (v : value) : JS world unit :=
  modify (with_broker (fun b =>
    {| attributes := <[name := v]> (attributes b);
       _heartbeatInterval := _heartbeatInterval b;
       relier_channelId := relier_channelId b |})).

(** [this.relier.get('channelId')] *)
Definition relier_get_channelId : JS world value :=
  gets (fun w => relier_channelId (broker w)).

Definition take_outcome : JS world chan_outcome :=
  fun w =>
    let (o, rest) := next_outcome (channel_script w) in
    (Normal o,
     {| broker := broker w; intervals := intervals w; next_handle := next_handle w;
        channel_script := rest; trace := trace w |}).

Definition settle (o : chan_outcome) : JS world (promise value) :=
  match o with
  | Resolves r => ret (Fulfilled r)
  | Rejects e => ret (Rejected e)
  | ThrowsSync e => throw e
  | NeverSettles => ret Pending
  end.

(** [this._notificationChannel.request(message, data)] *)
Definition channel_request (message : command) (data : value) : JS world (promise value) :=
  emit (ChannelRequest message data) >>
  let* o := take_outcome in
  settle o.

(** [this._notificationChannel.send(message, data)] *)
Definition channel_send (message : command) (data : value) : JS world (promise value) :=
  emit (ChannelSend message data) >>
  let* o := take_outcome in
  settle o.

(** [setInterval(() => this.heartbeat(), 1000)] *)
Definition setInterval : JS world nat :=
  fun w =>
    (Normal (next_handle w),
     {| broker := broker w; intervals := intervals w ++ [next_handle w];
        next_handle := S (next_handle w);
        channel_script := channel_script w; trace := trace w |}).

(** [clearInterval(h)]; [undefined] and unknown handles are ignored. *)
Definition clearInterval (h : option nat) : JS world unit :=
  modify (fun w =>
    {| broker := broker w;
       intervals := match h with
                    | Some i => filter (fun j => j <> i) (intervals w)
                    | None => intervals w
                    end;
       next_handle := next_handle w;
       channel_script := channel_script w; trace := trace w |}).

(** A missing [data] argument defaults to a fresh [{}]. *)
Definition default_data (data : value) : value :=
  match data with VUndefined => VObj [] | _ => data end.

(** [request(message, data = {})] *)
Definition request (message : command) (data : value) : JS world (promise value) :=
  let data := default_data data in
  promise_job (
    let* channelId := relier_get_channelId in
    let* data := set_prop data "channel_id" channelId in
    console_log [VStr "request"; command_label message; data] >>
    channel_request message data).

(** [send(message, data = {})] *)
Definition send (message : command) (data : value) : JS world (promise value) :=
  let data := default_data data in
  promise_job (
    let* channelId := relier_get_channelId in
    let* data := set_prop data "channel_id" channelId in
    console_log [VStr "send"; command_label message; data] >>
    channel_send message data).

(** [this.stateMachine.heartbeatError(err)]: the state machine is a
    collaborator; the call is recorded. *)
Definition stateMachine_heartbeatError (err : value) : JS world unit :=
  emit (StateMachineCall "heartbeatError" [err]).

(** [this.notifier.trigger(name)] *)
Definition notifier_trigger (name : string) : JS world unit :=
  emit (NotifierTrigger name).

(** The callback chained on the heartbeat request. *)
Definition on_heartbeat_response (response : value) : JS world (promise value) :=
  console_log [VStr "heartbeat response"; response] >>
  let* err := get_prop response "err" in
  if truthy err then
    stateMachine_heartbeatError err >>
    ret (Fulfilled VUndefined)
  else
    let* suppAuthorized := get_prop response "suppAuthorized" in
    if truthy suppAuthorized then
      console_log [VStr "supp is authorized"] >>
      notifier_trigger "pair:supp:authorize" >>
      ret (Fulfilled VUndefined)
    else ret (Fulfilled VUndefined).

(** [heartbeat()] *)
Definition heartbeat : JS world unit :=
  let* p := request PAIR_HEARTBEAT VUndefined in
  let* _ := promise_then p on_heartbeat_response in
  ret tt.

(** [startHeartbeat()] *)
Definition startHeartbeat : JS world unit :=
  let* h := setInterval in
  modify (with_broker (fun b =>
    {| attributes := attributes b;
       _heartbeatInterval := Some h;
       relier_channelId := relier_channelId b |})).

(** [stopHeartbeat()] *)
Definition stopHeartbeat : JS world unit :=
  let* h := gets (fun w => _heartbeatInterval (broker w)) in
  clearInterval h.

(** [_provisionScopedKeys()] *)
Definition _provisionScopedKeys : JS world unit :=
  throw (VObj [("name", VStr "Error"); ("message", VStr "this should never be called")]).

(** Modelled from the spec: [setRemoteMetaData] is imported from
    [./remote-metadata], which is not part of these sources, and is the
    only code of the metadata handler that is; the spec says that the
    broker "stores the response as [remoteMetaData] ... and transitions
    the state machine forward with the fetched metadata as payload".  The
    transition is recorded in the trace. *)
Definition setRemoteMetaData (response : value) : JS world unit :=
  this_set "remoteMetaData" response >>
  emit (StateMachineTransition response).

(** The callback chained on the metadata request. *)
Definition on_supplicant_metadata (response : value) : JS world (promise value) :=
  setRemoteMetaData response >>
  console_log [VStr "supplicantMetaData"; response] >>
  let* code := get_prop response "confirmation_code" in
  this_set "confirmationCode" code >>
  let* stored := this_get "remoteMetaData" in
  ret (Fulfilled stored).

(** [getSupplicantMetadata()] *)
Definition getSupplicantMetadata : JS world (promise value) :=
  let* remoteMetaData := this_get "remoteMetaData" in
  if truthy remoteMetaData then ret (Fulfilled remoteMetaData)
  else
    let* p := request PAIR_REQUEST_SUPPLICANT_METADATA VUndefined in
    promise_then p on_supplicant_metadata.

(** [afterPairAuthAllow(account)] *)
Definition afterPairAuthAllow : JS world (promise value) :=
  notifier_trigger "pair:auth:authorize" >>
  send PAIR_AUTHORIZE VUndefined.

(** [afterPairAuthDecline()] *)
Definition afterPairAuthDecline : JS world (promise value) :=
  send PAIR_DECLINE VUndefined.

(** [afterPairAuthComplete(account)] *)
Definition afterPairAuthComplete : JS world (promise value) :=
  send PAIR_COMPLETE VUndefined.

(** [fetch()]; [super.fetch()] belongs to the OAuth broker and is taken as
    an argument. *)
Definition fetch (super_fetch : JS world (promise value)) : JS world (promise value) :=
  promise_job (
    let* p0 := super_fetch in
    let* p1 := promise_then p0 (fun _ => getSupplicantMetadata) in
    promise_then p1 (fun _ => startHeartbeat >> ret (Fulfilled VUndefined))).

(** One period of the clock: every live interval fires its callback, in
    creation order.  A callback that throws does not stop the others. *)
Definition fire (w : world) (h : nat) : world := snd (heartbeat w).

Definition tick (w : world) : world := fold_left fire (intervals w) w.

Fixpoint ticks (n : nat) (w : world) : world :=
  match n with
  | O => w
  | S n' => ticks n' (tick w)
  end.

(** Observations on traces. *)
Definition state_machine_calls (tr : list event) : list (string * list value) :=
  flat_map (fun e => match e with StateMachineCall m a => [(m, a)] | _ => [] end) tr.

(** Modelled from the spec: the inputs of the pairing state machine.
    [AuthorityStateMachine] is not among the sources; [initialize] builds
    it with the broker and the broker's notifier.  Spec 4.2 names three
    inputs: the "heartbeat error" event carrying the error, which
    [heartbeatError(err)] raises; the "supplicant authorized" event, to
    which a [suppAuthorized] response is routed by the local notification
    [pair:supp:authorize]; and the forward transition with the fetched
    metadata as payload. *)
Inductive state_machine_event : Type :=
| HeartbeatError (err : value)
| SupplicantAuthorized
| SupplicantMetadata (payload : value).

Definition state_machine_input (e : event) : list state_machine_event :=
  match e with
  | StateMachineCall method [err] =>
      if String.eqb method "heartbeatError" then [HeartbeatError err] else []
  | NotifierTrigger name =>
      if String.eqb name "pair:supp:authorize" then [SupplicantAuthorized] else []
  | StateMachineTransition payload => [SupplicantMetadata payload]
  | _ => []
  end.

Definition state_machine_events (tr : list event) : list state_machine_event :=
  flat_map state_machine_input tr.

Definition notifications (tr : list event) : list string :=
  flat_map (fun e => match e with NotifierTrigger n => [n] | _ => [] end) tr.

Definition channel_requests (tr : list event) : list (command * value) :=
  flat_map (fun e => match e with ChannelRequest m d => [(m, d)] | _ => [] end) tr.

Definition channel_sends (tr : list event) : list (command * value) :=
  flat_map (fun e => match e with ChannelSend m d => [(m, d)] | _ => [] end) tr.

(** The events appended by a run that started with trace [before]. *)
Definition appended (before after : list event) : list event :=
  drop (length before) after.

Definition is_heartbeat_request (e : event) : bool :=
  match e with ChannelRequest PAIR_HEARTBEAT _ => true | _ => false end.

Definition heartbeat_requests (tr : list event) : nat :=
  length (List.filter is_heartbeat_request tr).

(** What [response[k]] evaluates to when the read does not throw. *)
Definition peek (v : value) (k : string) : value :=
  match v with
  | VObj fs => default VUndefined (field_lookup k fs)
  | _ => VUndefined
  end.

(** The promise a channel call hands to [request]'s caller. *)
Definition outcome_promise (o : chan_outcome) : promise value :=
  match o with
  | Resolves r => Fulfilled r
  | Rejects e => Rejected e
  | ThrowsSync e => Rejected e
  | NeverSettles => Pending
  end.

(** Timer handles are handed out in increasing order. *)
Definition fresh_handles (w : world) : Prop :=
  Forall (fun h => h < next_handle w) (intervals w).

(** The broker's methods as a caller can invoke them, and the clock. *)
Inductive broker_call : Type :=
| CallStartHeartbeat
| CallStopHeartbeat
| CallHeartbeat
| CallProvisionScopedKeys
| CallGetSupplicantMetadata
| CallAfterPairAuthAllow
| CallAfterPairAuthDecline
| CallAfterPairAuthComplete
| CallRequest (message : command) (data : value)
| CallSend (message : command) (data : value)
| ClockTick.

Definition run_call (c : broker_call) (w : world) : world :=
  match c with
  | CallStartHeartbeat => snd (startHeartbeat w)
  | CallStopHeartbeat => snd (stopHeartbeat w)
  | CallHeartbeat => snd (heartbeat w)
  | CallProvisionScopedKeys => snd (_provisionScopedKeys w)
  | CallGetSupplicantMetadata => snd (getSupplicantMetadata w)
  | CallAfterPairAuthAllow => snd (afterPairAuthAllow w)
  | CallAfterPairAuthDecline => snd (afterPairAuthDecline w)
  | CallAfterPairAuthComplete => snd (afterPairAuthComplete w)
  | CallRequest m d => snd (request m d w)
  | CallSend m d => snd (send m d w)
  | ClockTick => tick w
  end.

Definition run_calls (cs : list broker_call) (w : world) : world :=
  fold_left (fun w c => run_call c w) cs w.

(** The world after one channel call that logged [evs]. *)
Definition after_channel_call (w : world) (evs : list event) : world :=
  {| broker := broker w; intervals := intervals w; next_handle := next_handle w;
     channel_script := snd (next_outcome (channel_script w));
     trace := trace w ++ evs |}.

(** The data object after [data.channel_id = channelId]. *)
Definition stamped (w : world) (fs : list (string * value)) : value :=
  VObj (field_store "channel_id" (relier_channelId (broker w)) fs).

(** The world after logging [evs]. *)
Definition with_events (w : world) (evs : list event) : world :=
  {| broker := broker w; intervals := intervals w; next_handle := next_handle w;
     channel_script := channel_script w; trace := trace w ++ evs |}.

(** The two events every [request(message)] without data produces. *)
Definition request_events (w : world) (m : command) : list event :=
  [ConsoleLog [VStr "request"; command_label m; stamped w []];
   ChannelRequest m (stamped w [])].

(** A broker on channel [c9] that has not fetched anything and has no
    timer, facing a channel that will answer as [script] says. *)
Definition sample_world (script : list chan_outcome) : world :=
  {| broker := {| attributes := ∅; _heartbeatInterval := None;
                  relier_channelId := VStr "c9" |};
     intervals := []; next_handle := 1; channel_script := script; trace := [] |}.

(** A message as the channel receives it carries the relier's channel id. *)
Definition carries_channel_id (w : world) (message : command) (md : command * value) : Prop :=
  fst md = message /\ is_object (snd md) = true /\
  peek (snd md) "channel_id" = relier_channelId (broker w).

(** The world after the metadata handler stored response [r]. *)
Definition with_metadata (w : world) (r : value) : world :=
  {| broker :=
       {| attributes :=
            <["confirmationCode" := peek r "confirmation_code"]>
              (<["remoteMetaData" := r]> (attributes (broker w)));
          _heartbeatInterval := _heartbeatInterval (broker w);
          relier_channelId := relier_channelId (broker w) |};
     intervals := intervals w; next_handle := next_handle w;
     channel_script := channel_script w;
     trace := trace w ++ [StateMachineTransition r;
                          ConsoleLog [VStr "supplicantMetaData"; r]] |}.

(** The timer side of a world. *)
Definition timers (w : world) : list nat * nat * option nat :=
  (intervals w, next_handle w, _heartbeatInterval (broker w)).

(** Interval [h] is live, was handed out in the past, and is not the
    handle the broker remembers. *)
Definition orphaned (h : nat) (w : world) : Prop :=
  In h (intervals w) /\ h < next_handle w /\ _heartbeatInterval (broker w) <> Some h.

(** [k] calls of [startHeartbeat()] in a row. *)
Fixpoint startHeartbeats (k : nat) (w : world) : world :=
  match k with
  | O => w
  | S k' => startHeartbeats k' (snd (startHeartbeat w))
  end.

(** The cached supplicant metadata, [undefined] when there is none. *)
Definition cached_metadata (w : world) : value :=
  default VUndefined (attributes (broker w) !! "remoteMetaData").

(** *** Calls and answers apart

    Above, a call runs to the settlement of its promise before the next
    call starts.  The definitions below let the channel's answer to a
    metadata request arrive as a step of its own, so that a call can be
    made while an earlier request is still unanswered. *)

(** A world together with the number of metadata requests the channel has
    not answered yet. *)
Record pending_world : Type := {
  now : world;
  unanswered : nat
}.

Definition at_rest (w : world) : pending_world := {| now := w; unanswered := 0 |}.

(** The job of [request(message, data)] up to the call of the channel,
    whose promise stays unsettled. *)
Definition request_sent (message : command) (data : value) : JS world unit :=
  let data := default_data data in
  let* channelId := relier_get_channelId in
  let* data := set_prop data "channel_id" channelId in
  console_log [VStr "request"; command_label message; data] >>
  emit (ChannelRequest message data).

(** [getSupplicantMetadata()] up to the point where it returns its
    promise: settled at once from the cache, or pending on the request it
    has just issued. *)
Definition getSupplicantMetadata_call (pw : pending_world) : promise value * pending_world :=
  let remoteMetaData := cached_metadata (now pw) in
  if truthy remoteMetaData then (Fulfilled remoteMetaData, pw)
  else
    match request_sent PAIR_REQUEST_SUPPLICANT_METADATA VUndefined (now pw) with
    | (Normal _, w') => (Pending, {| now := w'; unanswered := S (unanswered pw) |})
    | (Throw e, w') => (Rejected e, {| now := w'; unanswered := unanswered pw |})
    end.

(** The channel answers the oldest unanswered metadata request: the
    handler chained by [getSupplicantMetadata] runs, and the result is the
    settlement of the promise that call returned. *)
Definition channel_answers (o : chan_outcome) (pw : pending_world)
  : promise value * pending_world :=
  match unanswered pw with
  | O => (Pending, pw)
  | S n =>
      match promise_then (outcome_promise o) on_supplicant_metadata (now pw) with
      | (Normal p, w') => (p, {| now := w'; unanswered := n |})
      | (Throw e, w') => (Rejected e, {| now := w'; unanswered := n |})
      end
  end.

End Authority.

(** ** The base authentication broker

    [models/auth_brokers/base] itself is not among the sources; its mocha
    suite is.  The definitions below follow the specification text, read
    so that every assertion of that suite holds. *)

Module Base.

(** What a lifecycle hook resolves to.  [halt] is [None] when the field is
    [undefined]. *)
Record Behavior : Type := {
  halt : option bool;
  endpoint : option string
}.

(** Modelled from the spec: the behavior classes are missing; "continue"
    is [{}] with no [halt], "navigate" has [halt = true] and names the
    destination. *)
Definition NullBehavior : Behavior := {| halt := None; endpoint := None |}.

Definition NavigateBehavior (ep : string) : Behavior :=
  {| halt := Some true; endpoint := Some ep |}.

(** Modelled from the spec: the lifecycle hooks of the missing base
    broker are "a symmetric pair of hooks -- before<Operation> and
    after<Operation> -- for each account-lifecycle operation (sign-in,
    sign-up, force-auth, password-reset, account-deletion,
    confirmation-polling variants)".  The operations are the ones the spec
    lists and the ones whose hooks the suite calls. *)
Inductive phase : Type :=
| before
| after.

Inductive operation : Type :=
| ChangePassword
| CompleteResetPassword
| CompleteSignUp
| DeleteAccount
| ForceAuth
| ResetPassword
| ResetPasswordConfirmationPoll
| SignIn
| SignInConfirmationPoll
| SignUp
| SignUpConfirmationPoll.

Record hook : Type := {
  hook_phase : phase;
  hook_operation : operation
}.

Definition all_operations : list operation :=
  [ChangePassword; CompleteResetPassword; CompleteSignUp; DeleteAccount; ForceAuth;
   ResetPassword; ResetPasswordConfirmationPoll; SignIn; SignInConfirmationPoll;
   SignUp; SignUpConfirmationPoll].

Definition all_hooks : list hook :=
  flat_map (fun op => [{| hook_phase := before; hook_operation := op |};
                       {| hook_phase := after; hook_operation := op |}])
           all_operations.

Definition phase_name (p : phase) : string :=
  match p with
  | before => "before"
  | after => "after"
  end.

Definition operation_name (op : operation) : string :=
  match op with
  | ChangePassword => "ChangePassword"
  | CompleteResetPassword => "CompleteResetPassword"
  | CompleteSignUp => "CompleteSignUp"
  | DeleteAccount => "DeleteAccount"
  | ForceAuth => "ForceAuth"
  | ResetPassword => "ResetPassword"
  | ResetPasswordConfirmationPoll => "ResetPasswordConfirmationPoll"
  | SignIn => "SignIn"
  | SignInConfirmationPoll => "SignInConfirmationPoll"
  | SignUp => "SignUp"
  | SignUpConfirmationPoll => "SignUpConfirmationPoll"
  end.

(** The method name of a hook, as in [afterSignIn]. *)
Definition hook_name (h : hook) : string :=
  phase_name (hook_phase h) ++ operation_name (hook_operation h).

Definition afterSignInConfirmationPoll : hook :=
  {| hook_phase := after; hook_operation := SignInConfirmationPoll |}.

Definition afterSignUpConfirmationPoll : hook :=
  {| hook_phase := after; hook_operation := SignUpConfirmationPoll |}.

(** Modelled from the spec: the broker's [defaultBehaviors] table is
    missing; the "default implementation resolves to the continue
    behavior ... except [afterSignInConfirmationPoll] and
    [afterSignUpConfirmationPoll], whose default Behavior is navigate to
    [signin_confirmed] / [signup_confirmed] respectively". *)
Definition default_behavior (h : hook) : Behavior :=
  match hook_phase h, hook_operation h with
  | after, SignInConfirmationPoll => NavigateBehavior "signin_confirmed"
  | after, SignUpConfirmationPoll => NavigateBehavior "signup_confirmed"
  | _, _ => NullBehavior
  end.

Definition defaultBehaviors : gmap string Behavior :=
  list_to_map (map (fun h => (hook_name h, default_behavior h)) all_hooks).

(** Modelled from the spec: the broker's [defaultCapabilities] are
    missing; [signup], [handleSignedInNotification] and
    [emailVerificationMarketingSnippet] are seeded true, and [fxaStatus]
    with what the channel's [isFxaStatusSupported()] probe answers when
    the broker is constructed. *)
Definition defaultCapabilities (fxaStatusSupported : bool) : gmap string value :=
  <["signup" := VBool true]>
  (<["handleSignedInNotification" := VBool true]>
  (<["emailVerificationMarketingSnippet" := VBool true]>
  (<["fxaStatus" := VBool fxaStatusSupported]> ∅))).

Inductive event : Type :=
| StatusRequest
| PersistCall (uid : string)
| UnpersistCall (uid : string).

Record BaseBroker : Type := {
  capabilities : gmap string value;
  behaviors : gmap string Behavior;
  attributes : gmap string value;
  relier_context : value
}.

(** The broker, the verification records in local storage keyed by
    (namespace, uid), what the channel will answer, and the trace. *)
Record world : Type := {
  broker : BaseBroker;
  storage : gmap (string * string) value;
  channel_script : list chan_outcome;
  trace : list event
}.

Definition with_broker (f : BaseBroker -> BaseBroker) (w : world) : world :=
  {| broker := f (broker w); storage := storage w;
     channel_script := channel_script w; trace := trace w |}.

Definition with_storage (f : gmap (string * string) value -> gmap (string * string) value)
    (w : world) : world :=
  {| broker := broker w; storage := f (storage w);
     channel_script := channel_script w; trace := trace w |}.

Definition emit (e : event) : JS world unit :=
  modify (fun w =>
    {| broker := broker w; storage := storage w;
       channel_script := channel_script w; trace := trace w ++ [e] |}).

(** *** Capability registry *)

(** Modelled from the spec: [setCapability(name, value)] stores the value
    under the name. *)
Definition setCapability (name : string) (v : value) : JS world unit :=
  modify (with_broker (fun b =>
    {| capabilities := <[name := v]> (capabilities b); behaviors := behaviors b;
       attributes := attributes b; relier_context := relier_context b |})).

(** Modelled from the spec: [unsetCapability(name)] removes the entry. *)
Definition unsetCapability (name : string) : JS world unit :=
  modify (with_broker (fun b =>
    {| capabilities := delete name (capabilities b); behaviors := behaviors b;
       attributes := attributes b; relier_context := relier_context b |})).

(** Modelled from the spec: [getCapability(name)] "returns the raw stored
    value or undefined". *)
Definition getCapability (name : string) : JS world value :=
  gets (fun w => default VUndefined (capabilities (broker w) !! name)).

(** Modelled from the spec: [hasCapability(name)] "coerces to boolean
    truthiness". *)
Definition hasCapability (name : string) : JS world bool :=
  let* v := getCapability name in
  ret (truthy v).

(** *** Behaviors and lifecycle hooks *)

Definition Error (msg : string) : value :=
  VObj [("name", VStr "Error"); ("message", VStr msg)].

(** Modelled from the spec: [getBehavior(name)] fails fast on an unknown
    name ('behavior not found for: NAME' in the suite). *)
Definition getBehavior (name : string) : JS world Behavior :=
  let* bs := gets (fun w => behaviors (broker w)) in
  match bs !! name with
  | Some b => ret b
  | None => throw (Error ("behavior not found for: " ++ name))
  end.

(** Modelled from the spec: [setBehavior(name, behavior)]. *)
Definition setBehavior (name : string) (b : Behavior) : JS world unit :=
  modify (with_broker (fun br =>
    {| capabilities := capabilities br; behaviors := <[name := b]> (behaviors br);
       attributes := attributes br; relier_context := relier_context br |})).

Record Account : Type := { uid : string }.

(** Modelled from the spec: [persistVerificationData(account)] writes the
    record keyed by the fixed namespace [context] and the account's uid,
    holding the relier's [context]. *)
Definition persistVerificationData (account : Account) : JS world (promise value) :=
  promise_job (
    emit (PersistCall (uid account)) >>
    let* ctx := gets (fun w => relier_context (broker w)) in
    modify (with_storage (insert ("context", uid account) (VObj [("context", ctx)]))) >>
    ret (Fulfilled VUndefined)).

(** Modelled from the spec: [unpersistVerificationData(account)] deletes
    that record. *)
Definition unpersistVerificationData (account : Account) : JS world (promise value) :=
  promise_job (
    emit (UnpersistCall (uid account)) >>
    modify (with_storage (delete ("context", uid account))) >>
    ret (Fulfilled VUndefined)).

(** Modelled from the spec: a hook resolves to the behavior registered
    under its name; [afterCompleteResetPassword] and [afterCompleteSignUp]
    first drop the account's verification data. *)
Definition run_hook (h : hook) (account : Account) : JS world (promise Behavior) :=
  match hook_phase h, hook_operation h with
  | after, CompleteResetPassword | after, CompleteSignUp =>
      let* p := unpersistVerificationData account in
      promise_then p (fun _ =>
        let* b := getBehavior (hook_name h) in
        ret (Fulfilled b))
  | _, _ =>
      let* b := getBehavior (hook_name h) in
      ret (Fulfilled b)
  end.

(** [new BaseAuthenticationBroker({ notificationChannel, notifier, relier })] *)
Definition new_broker (fxaStatusSupported : bool) (context : value)
    (script : list chan_outcome) : world :=
  {| broker := {| capabilities := defaultCapabilities fxaStatusSupported;
                  behaviors := defaultBehaviors;
                  attributes := ∅;
                  relier_context := context |};
     storage := ∅;
     channel_script := script;
     trace := [] |}.

(** *** Status fetch *)

Definition take_outcome : JS world chan_outcome :=
  fun w =>
    let (o, rest) := next_outcome (channel_script w) in
    (Normal o,
     {| broker := broker w; storage := storage w;
        channel_script := rest; trace := trace w |}).

(** The channel's [request] for the host's status. *)
Definition channel_request_status : JS world (promise value) :=
  emit StatusRequest >>
  let* o := take_outcome in
  match o with
  | Resolves r => ret (Fulfilled r)
  | Rejects e => ret (Rejected e)
  | ThrowsSync e => throw e
  | NeverSettles => ret Pending
  end.

Definition this_set (name : string) (v : value) : JS world unit :=
  modify (with_broker (fun b =>
    {| capabilities := capabilities b; behaviors := behaviors b;
       attributes := <[name := v]> (attributes b); relier_context := relier_context b |})).

Section StatusFetch.

(** [AuthErrors.is(err, type)] of [lib/auth-errors], which is not among
    the sources: the classification of errors is a parameter. *)
Variable AuthErrors_is : value -> string -> bool.

(** Modelled from the spec: [_fetchFxaStatus()] requests the status; on
    success it stores the returned [signedInUser] as
    [browserSignedInAccount]; an error classified as invalid web channel
    disables the [fxaStatus] capability and is swallowed; any other error
    propagates. *)
Definition _fetchFxaStatus : JS world (promise value) :=
  let* p := channel_request_status in
  promise_then2 p
    (fun response =>
       let* signedInUser := get_prop (match response with VUndefined => VObj [] | _ => response end)
                                     "signedInUser" in
       this_set "browserSignedInAccount" signedInUser >>
       ret (Fulfilled VUndefined))
    (fun err =>
       if AuthErrors_is err "INVALID_WEB_CHANNEL" then
         setCapability "fxaStatus" (VBool false) >>
         ret (Fulfilled VUndefined)
       else throw err).

(** Modelled from the spec: [fetch()] resolves at once when the
    [fxaStatus] capability is false and performs [_fetchFxaStatus]
    otherwise. *)
Definition fetch : JS world (promise value) :=
  promise_job (
    let* supported := hasCapability "fxaStatus" in
    if supported then _fetchFxaStatus else ret (Fulfilled VUndefined)).

End StatusFetch.

(** A sample of [lib/auth-errors] for concrete runs: [toError(type)]
    builds an error tagged with its type and [is(err, type)] compares the
    tag. *)
Definition toError (type : string) : value :=
  VObj [("name", VStr "Error"); ("type", VStr type)].

Definition sample_AuthErrors_is (err : value) (type : string) : bool :=
  match err with
  | VObj fs =>
      match field_lookup "type" fs with
      | Some (VStr t) => String.eqb t type
      | _ => false
      end
  | _ => false
  end.

(** Observations. *)
Definition status_requests (tr : list event) : nat :=
  length (List.filter (fun e => match e with StatusRequest => true | _ => false end) tr).

(** The stored value of the [fxaStatus] capability, [undefined] when
    unset. *)
Definition fxaStatus_capability (w : world) : value :=
  default VUndefined (capabilities (broker w) !! "fxaStatus").

(** A series of [setBehavior] calls. *)
Fixpoint override_behaviors (ovs : list (string * Behavior)) (w : world) : world :=
  match ovs with
  | [] => w
  | (name, b) :: rest => override_behaviors rest (snd (setBehavior name b w))
  end.

End Base.

(** ** The recovery-code input element

    The form element of [src/unnamed/part_001]: a text input whose value
    is read trimmed and validated as a recovery code. *)

Module RecoveryCode.

(** A JavaScript string as its UTF-16 code units. *)
Definition jsstring : Type := list N.

(** [StrWhiteSpaceChar] of ECMAScript, what [String.prototype.trim]
    strips: white space (TAB, VT, FF, SP, NBSP, ZWNBSP and the space
    separators) and line terminators (LF, CR, LS, PS). *)
Definition is_whitespace (c : N) : bool :=
  ((9 <=? c) && (c <=? 13) ||
   (c =? 32) || (c =? 160) || (c =? 5760) ||
   (8192 <=? c) && (c <=? 8202) ||
   (c =? 8232) || (c =? 8233) || (c =? 8239) || (c =? 8287) ||
   (c =? 12288) || (c =? 65279))%N.

Fixpoint trimStart (s : jsstring) : jsstring :=
  match s with
  | [] => []
  | c :: rest => if is_whitespace c then trimStart rest else s
  end.

Fixpoint trimEnd (s : jsstring) : jsstring :=
  match s with
  | [] => []
  | c :: rest =>
      match trimEnd rest with
      | [] => if is_whitespace c then [] else [c]
      | kept => c :: kept
      end
  end.

(** [s.trim()] *)
Definition trim (s : jsstring) : jsstring := trimEnd (trimStart s).

(** The jQuery element behind the input: its [type] attribute, its
    classes and the text typed into it (what [__val()] of the text-input
    prototype reads and [__val(v)] writes). *)
Record element : Type := {
  attr_type : option string;
  classes : list string;
  raw_value : jsstring
}.

(** [element.match($el)] *)
Definition match_ (el : element) : bool :=
  match attr_type el with
  | Some t => String.eqb t "text"
  | None => false
  end
  && existsb (String.eqb "recovery-code") (classes el).

(** [element.val()] without an argument *)
Definition val (el : element) : jsstring := trim (raw_value el).

(** [element.val(v)] with one argument *)
Definition val_set (el : element) (v : jsstring) : element :=
  {| attr_type := attr_type el; classes := classes el; raw_value := v |}.

(** The two errors [validate] builds with [AuthErrors.toError]. *)
Inductive auth_error : Type :=
| RECOVERY_CODE_REQUIRED
| INVALID_RECOVERY_CODE.

Inductive validation : Type :=
| Returns
| Throws (e : auth_error).

Section Validate.

(** [Vat.recoveryCode().validate(value).error] is truthy: the validator of
    [lib/vat] is not among the sources and is a parameter. *)
Variable recoveryCode_error : jsstring -> bool.

(** [element.validate()] *)
Definition validate (el : element) : validation :=
  let value := val el in
  if (length value =? 0)%nat then Throws RECOVERY_CODE_REQUIRED
  else if recoveryCode_error value then Throws INVALID_RECOVERY_CODE
  else Returns.

End Validate.

(** Only white space (or nothing at all). *)
Definition all_whitespace (s : jsstring) : bool := forallb is_whitespace s.

(** No white space at the front. *)
Definition clean_start (s : jsstring) : Prop :=
  match s with
  | [] => True
  | c :: _ => is_whitespace c = false
  end.

(** No white space at the back. *)
Definition clean_end (s : jsstring) : Prop := clean_start (rev s).

(** Code units of an ASCII text, for examples. *)
Definition of_ascii (s : string) : jsstring :=
  map Ascii.N_of_ascii (list_ascii_of_string s).

(** A sample validator for concrete runs: eight characters. *)
Definition sample_recoveryCode_error (s : jsstring) : bool :=
  negb (length s =? 8)%nat.

End RecoveryCode.

(** ** Application start

    The [Start] module of [src/unnamed/part_002]: session set-up from the
    URL, configuration and translations, the channel, and the first
    route. *)

Module StartApp.

Inductive channel_kind : Type :=
| FxDesktopChannel
| WebChannel.

Inductive metrics_kind : Type :=
| Metrics
| NullMetrics.

(** The router in use: the one passed in [options], or one made by
    [new Router({ metrics })]. *)
Inductive router : Type :=
| OptionsRouter
| NewRouter (metrics : metrics_kind).

(** What is stored in the session: plain values and the channel object. *)
Inductive session_value : Type :=
| SValue (v : value)
| SChannel (c : channel_kind).

Definition session_truthy (o : option session_value) : bool :=
  match o with
  | Some (SValue v) => truthy v
  | Some (SChannel _) => true
  | None => false
  end.

Inductive event : Type :=
| ConfigLoaderFetch
| ConfigLoaderUseConfig (config : value)
| ConfigLoaderAreCookiesEnabled
| TranslatorFetch
| MetricsInit (m : metrics_kind)
| ChannelInit (c : channel_kind)
| HistoryStart (pushState silent : bool)
| RouterNavigate (r : router) (page : string).

(** The [Start] object and what it works on.  [location_search] is
    [window.location.search] as [Url.searchParam(name, search)] of the
    missing [lib/url] reads it.  [Session] of the missing [lib/session] is
    taken to be a store of named values: [Session.set(name, v)] writes the
    name, [Session.clear(name)] removes it and [Session.service] reads the
    name [service]. *)
Record world : Type := {
  location_search : string -> value;
  Session : gmap string session_value;
  _router : option router;
  window_router : option router;
  window_translator : bool;
  _config : option value;
  _metrics : option metrics_kind;
  trace : list event
}.

Definition emit (e : event) : JS world unit :=
  modify (fun w =>
    {| location_search := location_search w; Session := Session w; _router := _router w;
       window_router := window_router w; window_translator := window_translator w;
       _config := _config w; _metrics := _metrics w; trace := trace w ++ [e] |}).

Definition with_Session (f : gmap string session_value -> gmap string session_value)
    (w : world) : world :=
  {| location_search := location_search w; Session := f (Session w); _router := _router w;
     window_router := window_router w; window_translator := window_translator w;
     _config := _config w; _metrics := _metrics w; trace := trace w |}.

(** [Session.set(name, v)] *)
Definition Session_set (name : string) (v : session_value) : JS world unit :=
  modify (with_Session (insert name v)).

(** [Session.clear(name)] *)
Definition Session_clear (name : string) : JS world unit :=
  modify (with_Session (delete name)).

(** [new Start(options)] on a page with the given query and session. *)
Definition new_Start (search : string -> value) (session : gmap string session_value)
    (options_router : option router) : world :=
  {| location_search := search; Session := session; _router := options_router;
     window_router := None; window_translator := false;
     _config := None; _metrics := None; trace := [] |}.

(** [_searchParam(name)] *)
Definition _searchParam (name : string) : JS world value :=
  gets (fun w => location_search w name).

(** [sessionName || paramName] *)
Definition session_name (paramName : string) (sessionName : option string) : string :=
  match sessionName with
  | Some s => if String.eqb s "" then paramName else s
  | None => paramName
  end.

(** [setSessionValueFromUrl(paramName, sessionName)] *)
Definition setSessionValueFromUrl (paramName : string) (sessionName : option string)
  : JS world unit :=
  let* value := _searchParam paramName in
  let name := session_name paramName sessionName in
  if truthy value then Session_set name (SValue value)
  else Session_clear name.

(** [initOAuthService()] *)
Definition initOAuthService : JS world unit :=
  let* service := gets (fun w => Session w !! "service") in
  if negb (session_truthy service) then setSessionValueFromUrl "client_id" (Some "service")
  else ret tt.

(** [initSessionFromUrl()] *)
Definition initSessionFromUrl : JS world unit :=
  setSessionValueFromUrl "service" None >>
  setSessionValueFromUrl "redirectTo" None >>
  setSessionValueFromUrl "context" None >>
  initOAuthService.

(** [v === s] for a string constant [s] *)
Definition strict_equals_string (v : value) (s : string) : bool :=
  match v with
  | VStr t => String.eqb t s
  | _ => false
  end.

(** [router.navigate(page)] on [self._router] *)
Definition router_navigate (page : string) : JS world unit :=
  let* r := gets _router in
  match r with
  | Some r => emit (RouterNavigate r page)
  | None => throw (TypeError "cannot read property of null or undefined")
  end.

Section Host.

(** [Constants.FX_DESKTOP_CONTEXT] of the missing [lib/constants]. *)
Variable FX_DESKTOP_CONTEXT : string.

(** How the collaborators answer: the promises of [ConfigLoader.fetch()],
    [Translator.fetch()] and [ConfigLoader.areCookiesEnabled()], and
    whether [Math.random() <= sampleRate] holds for a sample rate. *)
Variable config_fetch : promise value.
Variable translator_fetch : promise value.
Variable areCookiesEnabled : promise value.
Variable isMetricsCollectionEnabled : value -> bool.

(** [createMetrics(sampleRate)] *)
Definition createMetrics (sampleRate : value) : metrics_kind :=
  if isMetricsCollectionEnabled sampleRate then Metrics else NullMetrics.

(** [useConfig(config)] *)
Definition useConfig (config : value) : JS world unit :=
  modify (fun w =>
    {| location_search := location_search w; Session := Session w; _router := _router w;
       window_router := window_router w; window_translator := window_translator w;
       _config := Some config; _metrics := _metrics w; trace := trace w |}) >>
  emit (ConfigLoaderUseConfig config) >>
  Session_set "config" (SValue config) >>
  let* language := get_prop config "language" in
  Session_set "language" (SValue language) >>
  let* sampleRate := get_prop config "metricsSampleRate" in
  let metrics := createMetrics sampleRate in
  modify (fun w =>
    {| location_search := location_search w; Session := Session w; _router := _router w;
       window_router := window_router w; window_translator := window_translator w;
       _config := _config w; _metrics := Some metrics; trace := trace w |}) >>
  emit (MetricsInit metrics) >>
  modify (fun w =>
    {| location_search := location_search w; Session := Session w;
       _router := match _router w with
                  | None => Some (NewRouter metrics)
                  | Some r => Some r
                  end;
       window_router := window_router w; window_translator := window_translator w;
       _config := _config w; _metrics := _metrics w; trace := trace w |}) >>
  modify (fun w =>
    {| location_search := location_search w; Session := Session w; _router := _router w;
       window_router := _router w; window_translator := window_translator w;
       _config := _config w; _metrics := _metrics w; trace := trace w |}).

(** [initializeConfig()].  In the code [useConfig] runs in a later job,
    after [startApp] has also called [initializeL10n()]; here it runs as
    soon as the configuration promise is known.  What [useConfig] does is
    the same; only the place of its effects relative to the translator's
    fetch differs. *)
Definition initializeConfig : JS world (promise value) :=
  emit ConfigLoaderFetch >>
  promise_then config_fetch (fun config =>
    useConfig config >>
    ret (Fulfilled VUndefined)).

(** [initializeL10n()] *)
Definition initializeL10n : JS world (promise value) :=
  modify (fun w =>
    {| location_search := location_search w; Session := Session w; _router := _router w;
       window_router := window_router w; window_translator := true;
       _config := _config w; _metrics := _metrics w; trace := trace w |}) >>
  emit TranslatorFetch >>
  ret translator_fetch.

(** [getChannel()] *)
Definition getChannel : JS world channel_kind :=
  let* context := _searchParam "context" in
  let channel :=
    if strict_equals_string context FX_DESKTOP_CONTEXT then FxDesktopChannel
    else WebChannel in
  emit (ChannelInit channel) >>
  ret channel.

(** [allResourcesReady()] *)
Definition allResourcesReady : JS world (promise value) :=
  let* channel := getChannel in
  Session_set "channel" (SChannel channel) >>
  emit ConfigLoaderAreCookiesEnabled >>
  promise_then areCookiesEnabled (fun enabled =>
    let shouldRenderFirstView := negb (truthy enabled) in
    emit (HistoryStart true shouldRenderFirstView) >>
    (if negb (truthy enabled) then router_navigate "cookies_disabled" else ret tt) >>
    ret (Fulfilled VUndefined)).

(** [p.all([a, b])]: fulfilled when both are, rejected as soon as one
    is.  When both reject, the code reports the error that arrives first;
    arrival times are not part of this model, which reports the first
    promise's error. *)
Definition p_all (a b : promise value) : promise (value * value) :=
  match a, b with
  | Fulfilled x, Fulfilled y => Fulfilled (x, y)
  | Rejected e, _ => Rejected e
  | _, Rejected e => Rejected e
  | _, _ => Pending
  end.

(** [startApp()] *)
Definition startApp : JS world (promise value) :=
  initSessionFromUrl >>
  let* config := initializeConfig in
  let* l10n := initializeL10n in
  promise_then (p_all config l10n) (fun _ => allResourcesReady).

End Host.

(** What the query holds for a Session name when read by
    [setSessionValueFromUrl]. *)
Definition from_url (w : world) (paramName : string) : option session_value :=
  if truthy (location_search w paramName) then Some (SValue (location_search w paramName))
  else None.

(** Observations on traces. *)
Definition history_starts (tr : list event) : list (bool * bool) :=
  flat_map (fun e => match e with HistoryStart p s => [(p, s)] | _ => [] end) tr.

Definition navigations (tr : list event) : list string :=
  flat_map (fun e => match e with RouterNavigate _ page => [page] | _ => [] end) tr.

Definition channels_initialized (tr : list event) : list channel_kind :=
  flat_map (fun e => match e with ChannelInit c => [c] | _ => [] end) tr.

(** The channel [getChannel] picks for the page's [context] parameter. *)
Definition channel_for (FX_DESKTOP_CONTEXT : string) (w : world) : channel_kind :=
  if strict_equals_string (location_search w "context") FX_DESKTOP_CONTEXT
  then FxDesktopChannel else WebChannel.

(** The fetches of configuration and translations, in the order they are
    issued. *)
Definition resource_fetches (tr : list event) : list event :=
  flat_map (fun e => match e with
                     | ConfigLoaderFetch | TranslatorFetch => [e]
                     | _ => []
                     end) tr.

(** A query given by its parameters, for examples. *)
Definition query (params : list (string * string)) (name : string) : value :=
  match List.find (fun p => String.eqb (fst p) name) params with
  | Some p => VStr (snd p)
  | None => VUndefined
  end.

End StartApp.

(** * Properties of the pairing authority broker *)

Module AuthorityFacts.
Import Authority.

Lemma field_lookup_store k v fs : field_lookup k (field_store k v fs) = Some v.
Proof.
  induction fs as [|[k' v'] fs IH]; simpl.
  - now rewrite String.eqb_refl.
  - destruct (String.eqb k k') eqn:E; simpl; rewrite ?String.eqb_refl, ?E; auto.
Qed.

Lemma peek_stamped w fs : peek (stamped w fs) "channel_id" = relier_channelId (broker w).
Proof. unfold stamped, peek. now rewrite field_lookup_store. Qed.

Lemma default_data_object data :
  is_object (default_data data) = true -> exists fs, default_data data = VObj fs.
Proof. destruct data; simpl; try discriminate; eauto. Qed.

Ltac js_unfold :=
  unfold promise_then, promise_job, channel_request, channel_send, console_log,
    stateMachine_heartbeatError, notifier_trigger, relier_get_channelId,
    take_outcome, settle, set_prop, get_prop, this_get, this_set, emit,
    bind, ret, throw, gets, modify, with_broker in *.

Ltac js_run := js_unfold; simpl in *.

(** [request] on an object: one log line, one channel call, and the
    channel's outcome as a promise. *)
Lemma request_object m fs w :
  request m (VObj fs) w =
  (Normal (outcome_promise (fst (next_outcome (channel_script w)))),
   after_channel_call w
     [ConsoleLog [VStr "request"; command_label m; stamped w fs];
      ChannelRequest m (stamped w fs)]).
Proof.
  unfold request, after_channel_call, stamped. js_run.
  destruct (channel_script w) as [|[r|e|e|] rest]; simpl;
    rewrite <- app_assoc; reflexivity.
Qed.

Lemma send_object m fs w :
  send m (VObj fs) w =
  (Normal (outcome_promise (fst (next_outcome (channel_script w)))),
   after_channel_call w
     [ConsoleLog [VStr "send"; command_label m; stamped w fs];
      ChannelSend m (stamped w fs)]).
Proof.
  unfold send, after_channel_call, stamped. js_run.
  destruct (channel_script w) as [|[r|e|e|] rest]; simpl;
    rewrite <- app_assoc; reflexivity.
Qed.

(** [request] on anything that is not an object: the write of
    [channel_id] throws inside the job, nothing reaches the channel. *)
Lemma request_non_object m data w :
  is_object (default_data data) = false ->
  exists e, request m data w = (Normal (Rejected e), w).
Proof.
  intros H. unfold request. js_run.
  destruct data; simpl in *; try discriminate; eexists; reflexivity.
Qed.

Lemma send_non_object m data w :
  is_object (default_data data) = false ->
  exists e, send m data w = (Normal (Rejected e), w).
Proof.
  intros H. unfold send. js_run.
  destruct data; simpl in *; try discriminate; eexists; reflexivity.
Qed.

Lemma appended_app (tr evs : list event) : appended tr (tr ++ evs) = evs.
Proof. unfold appended. now rewrite drop_app_length. Qed.

Lemma appended_same (tr : list event) : appended tr tr = [].
Proof. unfold appended. now rewrite drop_all. Qed.

Lemma request_default_data m data w : request m data w = request m (default_data data) w.
Proof. unfold request. now destruct data. Qed.

Lemma send_default_data m data w : send m data w = send m (default_data data) w.
Proof. unfold send. now destruct data. Qed.

Lemma with_events_after_call w evs evs' :
  with_events (after_channel_call w evs) evs' = after_channel_call w (evs ++ evs').
Proof. unfold with_events, after_channel_call. simpl. now rewrite <- app_assoc. Qed.

Lemma request_heartbeat w :
  request PAIR_HEARTBEAT VUndefined w =
  (Normal (outcome_promise (fst (next_outcome (channel_script w)))),
   after_channel_call w (request_events w PAIR_HEARTBEAT)).
Proof. rewrite request_default_data. simpl default_data. apply request_object. Qed.

(** The response handler, by the three classes of response. *)
Lemma on_response_error r w :
  truthy (peek r "err") = true ->
  promise_job (on_heartbeat_response r) w =
  (Normal (Fulfilled VUndefined),
   with_events w [ConsoleLog [VStr "heartbeat response"; r];
                  StateMachineCall "heartbeatError" [peek r "err"]]).
Proof.
  intros H. unfold on_heartbeat_response, with_events.
  destruct r; simpl in H; try discriminate. js_run.
  rewrite H. simpl. now rewrite <- app_assoc.
Qed.

Lemma on_response_authorized r w :
  truthy (peek r "err") = false ->
  truthy (peek r "suppAuthorized") = true ->
  promise_job (on_heartbeat_response r) w =
  (Normal (Fulfilled VUndefined),
   with_events w [ConsoleLog [VStr "heartbeat response"; r];
                  ConsoleLog [VStr "supp is authorized"];
                  NotifierTrigger "pair:supp:authorize"]).
Proof.
  intros He Hs. unfold on_heartbeat_response, with_events.
  destruct r; simpl in He, Hs; try discriminate. js_run.
  rewrite He. simpl. rewrite Hs. simpl. now rewrite <- !app_assoc.
Qed.

Lemma on_response_neither r w :
  truthy (peek r "err") = false ->
  truthy (peek r "suppAuthorized") = false ->
  exists p,
    promise_job (on_heartbeat_response r) w =
    (Normal p, with_events w [ConsoleLog [VStr "heartbeat response"; r]]).
Proof.
  intros He Hs. unfold on_heartbeat_response, with_events.
  destruct r; simpl in He, Hs; js_run; try (eexists; reflexivity).
  rewrite He. simpl. rewrite Hs. simpl. eexists; reflexivity.
Qed.

Lemma promise_job_normal {S A} (body : JS S (promise A)) (s : S) :
  exists p, fst (promise_job body s) = Normal p.
Proof. unfold promise_job. destruct (body s) as [[p|e] s']; simpl; eauto. Qed.

(** A heartbeat whose request is answered: the handler runs on the world
    the request left. *)
Lemma heartbeat_resolved w r rest :
  channel_script w = Resolves r :: rest ->
  heartbeat w =
  (Normal tt,
   snd (promise_job (on_heartbeat_response r)
          (after_channel_call w (request_events w PAIR_HEARTBEAT)))).
Proof.
  intros Hs. unfold heartbeat, bind.
  rewrite request_heartbeat, Hs. simpl.
  destruct (promise_job_normal (on_heartbeat_response r)
              (after_channel_call w (request_events w PAIR_HEARTBEAT))) as [p Hp].
  destruct (promise_job _ _) as [c w']. simpl in *. now subst c.
Qed.

(** A heartbeat whose request is not answered with a response: only the
    request is seen. *)
Lemma heartbeat_unanswered w :
  (forall r rest, channel_script w <> Resolves r :: rest) ->
  heartbeat w = (Normal tt, after_channel_call w (request_events w PAIR_HEARTBEAT)).
Proof.
  intros Hs. unfold heartbeat.
  unfold bind at 1. rewrite request_heartbeat.
  destruct (channel_script w) as [|[r|e|e|] rest]; simpl; try reflexivity.
  now destruct (Hs r rest).
Qed.

Lemma heartbeat_error_world w r rest :
  channel_script w = Resolves r :: rest ->
  truthy (peek r "err") = true ->
  heartbeat w =
  (Normal tt,
   after_channel_call w
     (request_events w PAIR_HEARTBEAT ++
      [ConsoleLog [VStr "heartbeat response"; r];
       StateMachineCall "heartbeatError" [peek r "err"]])).
Proof.
  intros Hs He. rewrite (heartbeat_resolved _ _ _ Hs).
  rewrite on_response_error by assumption. simpl snd.
  now rewrite with_events_after_call.
Qed.

Lemma heartbeat_authorized_world w r rest :
  channel_script w = Resolves r :: rest ->
  truthy (peek r "err") = false ->
  truthy (peek r "suppAuthorized") = true ->
  heartbeat w =
  (Normal tt,
   after_channel_call w
     (request_events w PAIR_HEARTBEAT ++
      [ConsoleLog [VStr "heartbeat response"; r];
       ConsoleLog [VStr "supp is authorized"];
       NotifierTrigger "pair:supp:authorize"])).
Proof.
  intros Hs He Ha. rewrite (heartbeat_resolved _ _ _ Hs).
  rewrite on_response_authorized by assumption. simpl snd.
  now rewrite with_events_after_call.
Qed.

Lemma heartbeat_neither_world w r rest :
  channel_script w = Resolves r :: rest ->
  truthy (peek r "err") = false ->
  truthy (peek r "suppAuthorized") = false ->
  heartbeat w =
  (Normal tt,
   after_channel_call w
     (request_events w PAIR_HEARTBEAT ++ [ConsoleLog [VStr "heartbeat response"; r]])).
Proof.
  intros Hs He Ha. rewrite (heartbeat_resolved _ _ _ Hs).
  destruct (on_response_neither r
              (after_channel_call w (request_events w PAIR_HEARTBEAT)) He Ha) as [p Hp].
  rewrite Hp. simpl snd. now rewrite with_events_after_call.
Qed.

(** Whatever the channel answers, a heartbeat returns normally, issues its
    request and otherwise only logs, calls the state machine or notifies. *)
Lemma heartbeat_shape w :
  exists evs,
    heartbeat w =
      (Normal tt, after_channel_call w (request_events w PAIR_HEARTBEAT ++ evs))
    /\ channel_requests evs = [].
Proof.
  destruct (channel_script w) as [|[r|e|e|] rest] eqn:Hs.
  2: {
    destruct (truthy (peek r "err")) eqn:He;
      [|destruct (truthy (peek r "suppAuthorized")) eqn:Ha].
    - eexists. split; [eapply heartbeat_error_world; eauto|reflexivity].
    - eexists. split; [eapply heartbeat_authorized_world; eauto|reflexivity].
    - eexists. split; [eapply heartbeat_neither_world; eauto|reflexivity]. }
  all: exists []; rewrite app_nil_r; split; [|reflexivity];
    apply heartbeat_unanswered; intros r' rest'; rewrite Hs; discriminate.
Qed.

Lemma trace_after_call w evs : trace (after_channel_call w evs) = trace w ++ evs.
Proof. reflexivity. Qed.




(** C9: when the response's [err] is truthy, the handler's only effect
    beyond logging is [stateMachine.heartbeatError(err)]; no
    [pair:supp:authorize] notification is emitted, whatever
    [suppAuthorized] holds. *)
Theorem heartbeat_error_takes_precedence (w : world) (r : value) (rest : list chan_outcome) :
  channel_script w = Resolves r :: rest ->
  truthy (peek r "err") = true ->
  let w' := snd (heartbeat w) in
  trace w' =
    trace w ++
    request_events w PAIR_HEARTBEAT ++
    [ConsoleLog [VStr "heartbeat response"; r];
     StateMachineCall "heartbeatError" [peek r "err"]] /\
  state_machine_calls (appended (trace w) (trace w')) = [("heartbeatError", [peek r "err"])] /\
  ~ In "pair:supp:authorize" (notifications (appended (trace w) (trace w'))).
Proof.
  intros Hs He w'. subst w'.
  rewrite (heartbeat_error_world _ _ _ Hs He). simpl snd.
  rewrite trace_after_call, appended_app. simpl. auto.
Qed.

Lemma heartbeat_error_takes_precedence_witness :
  let r := VObj [("err", VStr "boom"); ("suppAuthorized", VBool true)] in
  let w := sample_world [Resolves r] in
  state_machine_calls (appended (trace w) (trace (snd (heartbeat w))))
    = [("heartbeatError", [VStr "boom"])] /\
  ~ In "pair:supp:authorize" (notifications (appended (trace w) (trace (snd (heartbeat w))))).
Proof.
  intros r w.
  exact (proj2 (heartbeat_error_takes_precedence w r [] eq_refl eq_refl)).
Defined.

(** ** The heartbeat loop *)

Lemma heartbeat_requests_app tr evs :
  heartbeat_requests (tr ++ evs) = heartbeat_requests tr + heartbeat_requests evs.
Proof. unfold heartbeat_requests. now rewrite List.filter_app, length_app. Qed.

Lemma no_requests_no_heartbeats evs :
  channel_requests evs = [] -> heartbeat_requests evs = 0.
Proof.
  induction evs as [|e evs IH]; [reflexivity|].
  destruct e; simpl; try discriminate; intros H; apply IH in H; exact H.
Qed.

(** A heartbeat leaves the broker object and the timers as they were and
    issues exactly one heartbeat request. *)
Lemma heartbeat_frame w :
  fst (heartbeat w) = Normal tt /\
  broker (snd (heartbeat w)) = broker w /\
  intervals (snd (heartbeat w)) = intervals w /\
  next_handle (snd (heartbeat w)) = next_handle w /\
  heartbeat_requests (trace (snd (heartbeat w))) = S (heartbeat_requests (trace w)).
Proof.
  destruct (heartbeat_shape w) as (evs & -> & Hevs). simpl.
  repeat split; try reflexivity.
  rewrite heartbeat_requests_app.
  change (heartbeat_requests (_ :: _ :: evs)) with (S (heartbeat_requests evs)).
  rewrite (no_requests_no_heartbeats _ Hevs). lia.
Qed.

Lemma fire_all_frame (l : list nat) : forall w,
  broker (fold_left fire l w) = broker w /\
  intervals (fold_left fire l w) = intervals w /\
  next_handle (fold_left fire l w) = next_handle w /\
  heartbeat_requests (trace (fold_left fire l w)) = heartbeat_requests (trace w) + length l.
Proof.
  induction l as [|h l IH]; intros w; simpl.
  - repeat split; lia.
  - destruct (IH (fire w h)) as (Hb & Hi & Hn & Hr).
    destruct (heartbeat_frame w) as (_ & Hb' & Hi' & Hn' & Hr').
    unfold fire in *. rewrite Hb, Hi, Hn, Hr, Hb', Hi', Hn', Hr'.
    repeat split; lia.
Qed.

Lemma ticks_frame (n : nat) : forall w,
  broker (ticks n w) = broker w /\
  intervals (ticks n w) = intervals w /\
  next_handle (ticks n w) = next_handle w /\
  heartbeat_requests (trace (ticks n w)) =
    heartbeat_requests (trace w) + n * length (intervals w).
Proof.
  induction n as [|n IH]; intros w; simpl.
  - repeat split; lia.
  - destruct (IH (tick w)) as (Hb & Hi & Hn & Hr).
    destruct (fire_all_frame (intervals w) w) as (Hb' & Hi' & Hn' & Hr').
    unfold tick in *. rewrite Hb, Hi, Hn, Hr, Hb', Hi', Hn', Hr'.
    repeat split; lia.
Qed.

(** C2 (amended): an error reported in a response's [err] field is handed
    to the state machine by [heartbeatError]; no outcome of the round trip
    (response, rejection, synchronous throw in the channel, no answer) is
    thrown out of [heartbeat()] or touches the timer, so once started the
    loop issues one heartbeat request per period whatever the channel
    answers, until [stopHeartbeat()] clears the interval. *)
Theorem heartbeat_errors_do_not_stop_loop (w : world) :
  fst (heartbeat w) = Normal tt /\
  intervals (snd (heartbeat w)) = intervals w /\
  (forall r rest,
      channel_script w = Resolves r :: rest -> truthy (peek r "err") = true ->
      state_machine_calls (appended (trace w) (trace (snd (heartbeat w))))
        = [("heartbeatError", [peek r "err"])]) /\
  (forall n,
      let w1 := ticks n (snd (startHeartbeat w)) in
      In (next_handle w) (intervals w1) /\
      heartbeat_requests (trace w1) =
        heartbeat_requests (trace w) + n * S (length (intervals w))) /\
  (intervals w = [] ->
   forall n m,
      let w2 := ticks m (snd (stopHeartbeat (ticks n (snd (startHeartbeat w))))) in
      intervals w2 = [] /\
      heartbeat_requests (trace w2) = heartbeat_requests (trace w) + n).
Proof.
  destruct (heartbeat_frame w) as (Hn & _ & Hi & _ & _).
  split; [exact Hn|]. split; [exact Hi|]. split; [|split].
  - intros r rest Hs He.
    rewrite (heartbeat_error_world _ _ _ Hs He). simpl snd.
    now rewrite trace_after_call, appended_app.
  - intros n w1. subst w1.
    destruct (ticks_frame n (snd (startHeartbeat w))) as (_ & Hi1 & _ & Hr1).
    rewrite Hi1, Hr1. cbn. rewrite length_app. cbn. split.
    + apply in_or_app. right. now left.
    + f_equal. f_equal. lia.
  - intros Hnil n m w2. subst w2.
    set (w1 := ticks n (snd (startHeartbeat w))).
    destruct (ticks_frame n (snd (startHeartbeat w))) as (Hb1 & Hi1 & _ & Hr1).
    fold w1 in Hb1, Hi1, Hr1.
    assert (Hstop : intervals (snd (stopHeartbeat w1)) = []
                    /\ trace (snd (stopHeartbeat w1)) = trace w1).
    { unfold stopHeartbeat, clearInterval. js_run. rewrite Hb1, Hi1. cbn.
      rewrite Hnil. cbn. rewrite decide_False by (intros H; now apply H).
      auto. }
    destruct Hstop as (Hi2 & Ht2).
    destruct (ticks_frame m (snd (stopHeartbeat w1))) as (_ & Hi3 & _ & Hr3).
    rewrite Hi3, Hr3, Hi2, Ht2, Hr1. cbn. rewrite Hnil. cbn.
    split; [reflexivity|unfold heartbeat_requests; lia].
Qed.

(** C2 as stated fails: when the channel rejects the heartbeat request,
    nothing is handed to the state machine. *)
Lemma heartbeat_rejection_not_handed_over :
  let w := sample_world [Rejects (VStr "boom")] in
  ~ (exists call, In call (state_machine_calls (appended (trace w) (trace (snd (heartbeat w)))))).
Proof.
  intros w [call H]. vm_compute in H. exact H.
Qed.

Lemma heartbeat_errors_do_not_stop_loop_witness :
  let w := sample_world [Rejects (VStr "down"); ThrowsSync (VStr "closed");
                         Resolves (VObj [("err", VStr "boom")])] in
  let w2 := ticks 2 (snd (stopHeartbeat (ticks 3 (snd (startHeartbeat w))))) in
  intervals w2 = [] /\ heartbeat_requests (trace w2) = heartbeat_requests (trace w) + 3.
Proof.
  intros w.
  exact (proj2 (proj2 (proj2 (proj2 (heartbeat_errors_do_not_stop_loop w)))) eq_refl 3 2).
Defined.

(** ** [request] and [send] *)

(** C4: whatever the command and the data, [request] and [send] return a
    promise (they never throw to the caller); every message they deliver
    to the channel carries [channel_id] equal to the relier's [channelId];
    with a data object (or none) exactly one message is delivered; and a
    synchronous throw inside the channel call becomes a rejection of the
    returned promise. *)
Theorem request_send_carry_channel_id (w : world) (message : command) (data : value) :
  let req := request message data w in
  let snt := send message data w in
  (exists p, fst req = Normal p) /\
  (exists p, fst snt = Normal p) /\
  Forall (carries_channel_id w message)
         (channel_requests (appended (trace w) (trace (snd req)))) /\
  Forall (carries_channel_id w message)
         (channel_sends (appended (trace w) (trace (snd snt)))) /\
  (is_object (default_data data) = true ->
     length (channel_requests (appended (trace w) (trace (snd req)))) = 1 /\
     length (channel_sends (appended (trace w) (trace (snd snt)))) = 1) /\
  (forall e rest,
     channel_script w = ThrowsSync e :: rest ->
     is_object (default_data data) = true ->
     fst req = Normal (Rejected e) /\ fst snt = Normal (Rejected e)).
Proof.
  intros req snt. subst req snt.
  destruct (is_object (default_data data)) eqn:Hobj.
  - destruct (default_data_object _ Hobj) as [fs Hfs].
    rewrite request_default_data, send_default_data, Hfs.
    rewrite request_object, send_object. simpl fst. simpl snd.
    rewrite !trace_after_call, !appended_app. simpl.
    assert (Hc : carries_channel_id w message (message, stamped w fs)).
    { unfold carries_channel_id. simpl. split; [reflexivity|]. split; [reflexivity|].
      apply peek_stamped. }
    repeat split; eauto.
    all: rewrite H; reflexivity.
  - destruct (request_non_object message data w Hobj) as [e1 ->].
    destruct (send_non_object message data w Hobj) as [e2 ->].
    simpl. rewrite appended_same. simpl.
    repeat split; eauto; discriminate.
Qed.

Lemma request_send_carry_channel_id_witness :
  let w := sample_world [ThrowsSync (VStr "closed")] in
  fst (request PAIR_AUTHORIZE (VObj [("channel_id", VStr "stale")]) w)
    = Normal (Rejected (VStr "closed")) /\
  fst (send PAIR_AUTHORIZE (VObj [("channel_id", VStr "stale")]) w)
    = Normal (Rejected (VStr "closed")).
Proof.
  intros w.
  exact (proj2 (proj2 (proj2 (proj2 (proj2
           (request_send_carry_channel_id w PAIR_AUTHORIZE
              (VObj [("channel_id", VStr "stale")]))))))
           (VStr "closed") [] eq_refl eq_refl).
Defined.

(** ** Supplicant metadata *)

Lemma request_metadata w :
  request PAIR_REQUEST_SUPPLICANT_METADATA VUndefined w =
  (Normal (outcome_promise (fst (next_outcome (channel_script w)))),
   after_channel_call w (request_events w PAIR_REQUEST_SUPPLICANT_METADATA)).
Proof. rewrite request_default_data. simpl default_data. apply request_object. Qed.

Lemma on_metadata_truthy r w :
  truthy r = true ->
  promise_job (on_supplicant_metadata r) w = (Normal (Fulfilled r), with_metadata w r).
Proof.
  intros Hr. unfold on_supplicant_metadata, setRemoteMetaData, with_metadata.
  destruct r; simpl in Hr; try discriminate; js_run;
    rewrite lookup_insert_ne by discriminate; rewrite lookup_insert_eq;
    rewrite <- app_assoc; reflexivity.
Qed.

Lemma on_metadata_timers r w :
  timers (snd (promise_job (on_supplicant_metadata r) w)) = timers w.
Proof.
  unfold on_supplicant_metadata, setRemoteMetaData, timers.
  destruct r; js_run; reflexivity.
Qed.

Lemma getSupplicantMetadata_cached w :
  truthy (default VUndefined (attributes (broker w) !! "remoteMetaData")) = true ->
  getSupplicantMetadata w =
  (Normal (Fulfilled (default VUndefined (attributes (broker w) !! "remoteMetaData"))), w).
Proof.
  intros H. unfold getSupplicantMetadata, this_get, bind, gets, ret. now rewrite H.
Qed.

Lemma getSupplicantMetadata_uncached w :
  truthy (default VUndefined (attributes (broker w) !! "remoteMetaData")) = false ->
  getSupplicantMetadata w =
  promise_then (outcome_promise (fst (next_outcome (channel_script w))))
    on_supplicant_metadata
    (after_channel_call w (request_events w PAIR_REQUEST_SUPPLICANT_METADATA)).
Proof.
  intros H. unfold getSupplicantMetadata, this_get.
  unfold bind at 1. unfold gets. rewrite H.
  unfold bind. now rewrite request_metadata.
Qed.

Lemma request_sent_metadata w :
  request_sent PAIR_REQUEST_SUPPLICANT_METADATA VUndefined w =
  (Normal tt, with_events w (request_events w PAIR_REQUEST_SUPPLICANT_METADATA)).
Proof.
  unfold request_sent, with_events, request_events, stamped. js_run.
  now rewrite <- app_assoc.
Qed.

Lemma getSupplicantMetadata_call_uncached pw :
  truthy (cached_metadata (now pw)) = false ->
  getSupplicantMetadata_call pw =
  (Pending,
   {| now := with_events (now pw) (request_events (now pw) PAIR_REQUEST_SUPPLICANT_METADATA);
      unanswered := S (unanswered pw) |}).
Proof.
  intros Hc. unfold getSupplicantMetadata_call. now rewrite Hc, request_sent_metadata.
Qed.

(** Answered at once, a call is the run-to-completion
    [getSupplicantMetadata]: same settlement, same broker, same trace. *)
Lemma call_answered_at_once w o rest :
  truthy (cached_metadata w) = false ->
  channel_script w = o :: rest ->
  let answered := channel_answers o (snd (getSupplicantMetadata_call (at_rest w))) in
  fst (getSupplicantMetadata w) = Normal (fst answered) /\
  broker (snd (getSupplicantMetadata w)) = broker (now (snd answered)) /\
  trace (snd (getSupplicantMetadata w)) = trace (now (snd answered)).
Proof.
  intros Hc Hs answered. subst answered.
  rewrite (getSupplicantMetadata_uncached _ Hc), Hs.
  rewrite (getSupplicantMetadata_call_uncached (at_rest w) Hc).
  unfold channel_answers. cbn [snd unanswered now at_rest fst next_outcome].
  destruct (outcome_promise o) as [r|e|]; cbn [promise_then]; try (repeat split; reflexivity).
  unfold on_supplicant_metadata, setRemoteMetaData.
  destruct r; js_run; repeat split; reflexivity.
Qed.

(** C3 (amended): [getSupplicantMetadata()] returns the cached
    [remoteMetaData] at once when it is present; otherwise it issues a
    channel request for the supplicant metadata and, when the channel
    answers with the metadata, stores the response as [remoteMetaData],
    stores [confirmationCode] from the response's [confirmation_code],
    transitions the state machine forward with the fetched metadata as
    payload and resolves with the metadata; consequently a second call
    made after that answer issues no further channel request and both
    calls resolve to identical metadata. *)
Theorem getSupplicantMetadata_cached_or_fetched (pw : pending_world) :
  let w := now pw in
  (truthy (cached_metadata w) = true ->
     getSupplicantMetadata_call pw = (Fulfilled (cached_metadata w), pw)) /\
  (truthy (cached_metadata w) = false ->
     let first := getSupplicantMetadata_call pw in
     fst first = Pending /\
     appended (trace w) (trace (now (snd first)))
       = request_events w PAIR_REQUEST_SUPPLICANT_METADATA /\
     unanswered (snd first) = S (unanswered pw) /\
     forall r, truthy r = true ->
       let answered := channel_answers (Resolves r) (snd first) in
       let w1 := now (snd answered) in
       fst answered = Fulfilled r /\
       attributes (broker w1) !! "remoteMetaData" = Some r /\
       attributes (broker w1) !! "confirmationCode" = Some (peek r "confirmation_code") /\
       state_machine_events (appended (trace w) (trace w1)) = [SupplicantMetadata r] /\
       channel_requests (appended (trace w) (trace w1))
         = [(PAIR_REQUEST_SUPPLICANT_METADATA, stamped w [])] /\
       getSupplicantMetadata_call (snd answered) = (Fulfilled r, snd answered)).
Proof.
  intros w. subst w. split.
  - intros Hc. unfold getSupplicantMetadata_call. now rewrite Hc.
  - intros Hc first. subst first.
    rewrite (getSupplicantMetadata_call_uncached _ Hc). cbn [fst snd now unanswered].
    split; [reflexivity|]. split; [apply appended_app|]. split; [reflexivity|].
    intros r Hr. cbv zeta.
    unfold channel_answers. cbn [unanswered now outcome_promise promise_then].
    rewrite (on_metadata_truthy _ _ Hr). cbn [fst snd now].
    set (w0 := with_events (now pw) _).
    assert (Hl : attributes (broker (with_metadata w0 r)) !! "remoteMetaData" = Some r).
    { simpl. rewrite lookup_insert_ne by discriminate. apply lookup_insert_eq. }
    assert (Ht : appended (trace (now pw)) (trace (with_metadata w0 r))
                 = request_events (now pw) PAIR_REQUEST_SUPPLICANT_METADATA ++
                   [StateMachineTransition r; ConsoleLog [VStr "supplicantMetaData"; r]]).
    { subst w0. simpl trace. rewrite <- app_assoc. now rewrite appended_app. }
    split; [reflexivity|]. split; [exact Hl|].
    split; [simpl; apply lookup_insert_eq|].
    split; [now rewrite Ht|]. split; [now rewrite Ht|].
    unfold getSupplicantMetadata_call, cached_metadata. cbn [now].
    rewrite Hl. change (default VUndefined (Some r)) with r. now rewrite Hr.
Qed.

Lemma getSupplicantMetadata_cached_or_fetched_witness :
  let r := VObj [("confirmation_code", VStr "1234"); ("ua", VStr "Firefox")] in
  let first := getSupplicantMetadata_call (at_rest (sample_world [])) in
  let answered := channel_answers (Resolves r) (snd first) in
  fst answered = Fulfilled r /\
  state_machine_events (trace (now (snd answered))) = [SupplicantMetadata r] /\
  getSupplicantMetadata_call (snd answered) = (Fulfilled r, snd answered).
Proof.
  intros r first answered.
  destruct (proj2 (getSupplicantMetadata_cached_or_fetched (at_rest (sample_world [])))
              eq_refl) as (_ & _ & _ & H).
  destruct (H r eq_refl) as (H1 & _ & _ & H4 & _ & H6).
  exact (conj H1 (conj H4 H6)).
Defined.

(** C3 as stated fails: two calls can issue two channel requests, when
    the second call is made before the first request is answered, and
    when it is made after the first request failed. *)
Lemma getSupplicantMetadata_twice_two_requests :
  let r := VObj [("confirmation_code", VStr "1234")] in
  let early :=
    snd (getSupplicantMetadata_call
           (snd (getSupplicantMetadata_call (at_rest (sample_world []))))) in
  let retried :=
    snd (getSupplicantMetadata
           (snd (getSupplicantMetadata
                   (sample_world [Rejects (VStr "offline"); Resolves r])))) in
  ~ (length (channel_requests (trace (now early))) <= 1) /\
  ~ (length (channel_requests (trace retried)) <= 1).
Proof.
  intros r early retried. split; intros H; vm_compute in H; lia.
Qed.

(** ** Timer handles *)

Lemma request_timers m data w : timers (snd (request m data w)) = timers w.
Proof.
  destruct (is_object (default_data data)) eqn:Hobj.
  - destruct (default_data_object _ Hobj) as [fs Hfs].
    now rewrite request_default_data, Hfs, request_object.
  - now destruct (request_non_object m data w Hobj) as [e ->].
Qed.

Lemma send_timers m data w : timers (snd (send m data w)) = timers w.
Proof.
  destruct (is_object (default_data data)) eqn:Hobj.
  - destruct (default_data_object _ Hobj) as [fs Hfs].
    now rewrite send_default_data, Hfs, send_object.
  - now destruct (send_non_object m data w Hobj) as [e ->].
Qed.

Lemma heartbeat_timers w : timers (snd (heartbeat w)) = timers w.
Proof.
  destruct (heartbeat_frame w) as (_ & Hb & Hi & Hn & _).
  unfold timers. now rewrite Hb, Hi, Hn.
Qed.

Lemma tick_timers w : timers (tick w) = timers w.
Proof.
  destruct (fire_all_frame (intervals w) w) as (Hb & Hi & Hn & _).
  unfold timers, tick. now rewrite Hb, Hi, Hn.
Qed.

Lemma getSupplicantMetadata_timers w :
  timers (snd (getSupplicantMetadata w)) = timers w.
Proof.
  destruct (truthy (default VUndefined (attributes (broker w) !! "remoteMetaData"))) eqn:Hc.
  - now rewrite getSupplicantMetadata_cached.
  - rewrite (getSupplicantMetadata_uncached _ Hc).
    destruct (outcome_promise _) as [r|e|]; simpl; try reflexivity.
    now rewrite on_metadata_timers.
Qed.

Lemma orphaned_timers h w w' : timers w' = timers w -> orphaned h w -> orphaned h w'.
Proof.
  unfold timers, orphaned. intros H. inversion H as [[Hi Hn Hh]].
  now rewrite Hi, Hn, Hh.
Qed.

Lemma startHeartbeat_orphaned h w : orphaned h w -> orphaned h (snd (startHeartbeat w)).
Proof.
  intros (Hin & Hlt & _). unfold orphaned. cbn.
  split; [apply in_or_app; now left|]. split; [lia|].
  intros [= E]. lia.
Qed.

Lemma filter_keeps (h i : nat) (l : list nat) :
  h <> i -> In h l -> In h (filter (fun j => j <> i) l).
Proof.
  intros Hne Hin. apply list_elem_of_In, list_elem_of_filter.
  split; [exact Hne|now apply list_elem_of_In].
Qed.

Lemma stopHeartbeat_orphaned h w : orphaned h w -> orphaned h (snd (stopHeartbeat w)).
Proof.
  intros (Hin & Hlt & Hne). unfold orphaned, stopHeartbeat, clearInterval. js_run.
  split; [|split; assumption].
  destruct (_heartbeatInterval (broker w)) as [i|]; [|assumption].
  apply filter_keeps; [congruence|assumption].
Qed.

(** No call on the broker, and no passing of time, cancels an orphaned
    interval. *)
Lemma run_call_orphaned h c w : orphaned h w -> orphaned h (run_call c w).
Proof.
  destruct c; simpl.
  - apply startHeartbeat_orphaned.
  - apply stopHeartbeat_orphaned.
  - apply orphaned_timers, heartbeat_timers.
  - auto.
  - apply orphaned_timers, getSupplicantMetadata_timers.
  - apply orphaned_timers. unfold afterPairAuthAllow, notifier_trigger, emit, bind, modify.
    now rewrite send_timers.
  - apply orphaned_timers, send_timers.
  - apply orphaned_timers, send_timers.
  - apply orphaned_timers, request_timers.
  - apply orphaned_timers, send_timers.
  - apply orphaned_timers, tick_timers.
Qed.

Lemma run_calls_orphaned h cs : forall w, orphaned h w -> orphaned h (run_calls cs w).
Proof.
  induction cs as [|c cs IH]; intros w H; simpl; [exact H|].
  apply IH, run_call_orphaned, H.
Qed.

Lemma filter_drops_last (l : list nat) (h1 h2 : nat) :
  Forall (fun h => h < h1) l -> h1 < h2 ->
  filter (fun j => j <> h2) (l ++ [h1; h2]) = l ++ [h1].
Proof.
  intros Hl Hlt. rewrite filter_app. f_equal.
  - induction Hl as [|x l Hx _ IH]; [reflexivity|].
    rewrite filter_cons_True by lia. now rewrite IH.
  - rewrite filter_cons_True by lia.
    rewrite filter_cons_False by (intros H; now apply H). reflexivity.
Qed.

(** C10: a second [startHeartbeat()] overwrites the stored handle; the
    following [stopHeartbeat()] clears the second interval only, the first
    one stays live and keeps firing, and no sequence of calls on the
    broker cancels it. *)
Theorem second_startHeartbeat_orphans_first_timer (w : world) :
  fresh_handles w ->
  let h1 := next_handle w in
  let h2 := S (next_handle w) in
  let w1 := snd (startHeartbeat w) in
  let w2 := snd (startHeartbeat w1) in
  let w3 := snd (stopHeartbeat w2) in
  _heartbeatInterval (broker w1) = Some h1 /\
  _heartbeatInterval (broker w2) = Some h2 /\
  intervals w2 = intervals w ++ [h1; h2] /\
  intervals w3 = intervals w ++ [h1] /\
  heartbeat_requests (trace (tick w3)) =
    heartbeat_requests (trace w) + S (length (intervals w)) /\
  (forall calls, In h1 (intervals (run_calls calls w3))).
Proof.
  intros Hfresh h1 h2 w1 w2 w3.
  assert (H2 : intervals w2 = intervals w ++ [h1; h2]).
  { subst w2 w1 h1 h2. cbn. now rewrite <- app_assoc. }
  assert (H3 : intervals w3 = intervals w ++ [h1]).
  { subst w3. unfold stopHeartbeat, clearInterval. js_run. fold w1. fold w2.
    rewrite H2. apply filter_drops_last; [exact Hfresh|subst h1 h2; lia]. }
  split; [reflexivity|]. split; [reflexivity|]. split; [exact H2|]. split; [exact H3|].
  split.
  - destruct (fire_all_frame (intervals w3) w3) as (_ & _ & _ & Hr).
    unfold tick. rewrite Hr, H3, length_app. cbn. unfold heartbeat_requests. lia.
  - intros calls.
    refine (proj1 (run_calls_orphaned h1 calls w3 _)).
    unfold orphaned. rewrite H3. split; [apply in_or_app; right; now left|].
    subst w3 w2 w1 h1 h2. cbn. split; [lia|]. intros [= E]. lia.
Qed.

Lemma second_startHeartbeat_orphans_first_timer_witness :
  let w := sample_world [] in
  let w3 := snd (stopHeartbeat (snd (startHeartbeat (snd (startHeartbeat w))))) in
  intervals w3 = [1] /\
  In 1 (intervals (run_calls [CallStopHeartbeat; CallStartHeartbeat; CallStopHeartbeat] w3)).
Proof.
  intros w w3.
  destruct (second_startHeartbeat_orphans_first_timer w (List.Forall_nil _))
    as (_ & _ & _ & H3 & _ & H5).
  exact (conj H3 (H5 [CallStopHeartbeat; CallStartHeartbeat; CallStopHeartbeat])).
Defined.

(** ** Further properties of the authority broker *)

Lemma field_lookup_store_ne k k' v fs :
  k' <> k -> field_lookup k' (field_store k v fs) = field_lookup k' fs.
Proof.
  intros Hne. induction fs as [|[k0 v0] fs IH]; simpl.
  - destruct (String.eqb k' k) eqn:E; [apply String.eqb_eq in E; contradiction|reflexivity].
  - destruct (String.eqb k k0) eqn:E0; simpl.
    + apply String.eqb_eq in E0. subst k0.
      destruct (String.eqb k' k) eqn:E; [apply String.eqb_eq in E; contradiction|reflexivity].
    + now rewrite IH.
Qed.

(** X9: the data object reaches the channel with every property the
    caller put in it, except that [channel_id] is (over)written with the
    relier's channel id; this holds for [request] and for [send]. *)
Theorem request_send_keep_payload
    (w : world) (message : command) (fs : list (string * value)) :
  exists delivered,
    channel_requests (appended (trace w) (trace (snd (request message (VObj fs) w))))
      = [(message, delivered)] /\
    channel_sends (appended (trace w) (trace (snd (send message (VObj fs) w))))
      = [(message, delivered)] /\
    peek delivered "channel_id" = relier_channelId (broker w) /\
    (forall k, k <> "channel_id" -> peek delivered k = peek (VObj fs) k).
Proof.
  exists (stamped w fs).
  rewrite request_object, send_object. simpl snd.
  rewrite !trace_after_call, !appended_app. simpl.
  split; [reflexivity|]. split; [reflexivity|]. split; [apply peek_stamped|].
  intros k Hk. unfold stamped, peek. now rewrite field_lookup_store_ne.
Qed.

(** X10: [request] and [send] leave the broker object and the timers as
    they were, call no state-machine method and trigger no notification:
    beyond the log line their only effect is the channel call, and
    [request] never sends while [send] never requests. *)
Theorem request_send_confined (w : world) (message : command) (data : value) :
  let wr := snd (request message data w) in
  let ws := snd (send message data w) in
  broker wr = broker w /\ broker ws = broker w /\
  timers wr = timers w /\ timers ws = timers w /\
  state_machine_calls (appended (trace w) (trace wr)) = [] /\
  state_machine_calls (appended (trace w) (trace ws)) = [] /\
  notifications (appended (trace w) (trace wr)) = [] /\
  notifications (appended (trace w) (trace ws)) = [] /\
  channel_sends (appended (trace w) (trace wr)) = [] /\
  channel_requests (appended (trace w) (trace ws)) = [].
Proof.
  intros wr ws. subst wr ws.
  rewrite request_timers, send_timers.
  destruct (is_object (default_data data)) eqn:Hobj.
  - destruct (default_data_object _ Hobj) as [fs Hfs].
    rewrite request_default_data, send_default_data, Hfs, request_object, send_object.
    simpl snd. rewrite !trace_after_call, !appended_app. simpl. repeat split.
  - destruct (request_non_object message data w Hobj) as [e1 ->].
    destruct (send_non_object message data w Hobj) as [e2 ->].
    simpl snd. rewrite appended_same. simpl. repeat split.
Qed.

Lemma send_no_data m w :
  send m VUndefined w =
  (Normal (outcome_promise (fst (next_outcome (channel_script w)))),
   after_channel_call w
     [ConsoleLog [VStr "send"; command_label m; stamped w []];
      ChannelSend m (stamped w [])]).
Proof. rewrite send_default_data. simpl default_data. apply send_object. Qed.

Lemma afterPairAuthAllow_run w :
  afterPairAuthAllow w =
  (Normal (outcome_promise (fst (next_outcome (channel_script w)))),
   after_channel_call w
     [NotifierTrigger "pair:auth:authorize";
      ConsoleLog [VStr "send"; command_label PAIR_AUTHORIZE; stamped w []];
      ChannelSend PAIR_AUTHORIZE (stamped w [])]).
Proof.
  unfold afterPairAuthAllow, notifier_trigger, emit, bind, modify.
  rewrite send_default_data. simpl default_data. rewrite send_object.
  unfold after_channel_call, stamped. simpl. now rewrite <- app_assoc.
Qed.

(** X11: [afterPairAuthAllow] triggers exactly one [pair:auth:authorize]
    notification and then sends exactly one PAIR_AUTHORIZE message;
    [afterPairAuthDecline] and [afterPairAuthComplete] send exactly one
    PAIR_DECLINE and one PAIR_COMPLETE message and notify nothing.  Each
    message carries only the relier's channel id, each hook returns the
    promise of its send (rejected when the channel throws or rejects), and
    the notification of [afterPairAuthAllow] is emitted whatever becomes
    of the send. *)
Theorem pair_auth_hooks_send_their_command (w : world) :
  let answer := outcome_promise (fst (next_outcome (channel_script w))) in
  let only_channel_id := VObj [("channel_id", relier_channelId (broker w))] in
  let new c := appended (trace w) (trace (snd c)) in
  (fst (afterPairAuthAllow w) = Normal answer /\
   notifications (new (afterPairAuthAllow w)) = ["pair:auth:authorize"] /\
   channel_sends (new (afterPairAuthAllow w)) = [(PAIR_AUTHORIZE, only_channel_id)]) /\
  (fst (afterPairAuthDecline w) = Normal answer /\
   notifications (new (afterPairAuthDecline w)) = [] /\
   channel_sends (new (afterPairAuthDecline w)) = [(PAIR_DECLINE, only_channel_id)]) /\
  (fst (afterPairAuthComplete w) = Normal answer /\
   notifications (new (afterPairAuthComplete w)) = [] /\
   channel_sends (new (afterPairAuthComplete w)) = [(PAIR_COMPLETE, only_channel_id)]).
Proof.
  intros answer only_channel_id new. subst answer only_channel_id new. cbv beta.
  rewrite afterPairAuthAllow_run.
  unfold afterPairAuthDecline, afterPairAuthComplete.
  rewrite !send_no_data.
  simpl fst. simpl snd. rewrite !trace_after_call, !appended_app. simpl.
  repeat split.
Qed.

Lemma filter_all_below (l : list nat) (h : nat) :
  Forall (fun j => j < h) l -> filter (fun j => j <> h) l = l.
Proof.
  induction 1 as [|x l Hx _ IH]; [reflexivity|].
  rewrite filter_cons_True by lia. now rewrite IH.
Qed.

Lemma filter_twice (l : list nat) (h : nat) :
  filter (fun j => j <> h) (filter (fun j => j <> h) l) = filter (fun j => j <> h) l.
Proof.
  induction l as [|x l IH]; [reflexivity|].
  destruct (decide (x <> h)) as [Hx|Hx].
  - rewrite (filter_cons_True (fun j => j <> h) x l Hx).
    rewrite (filter_cons_True (fun j => j <> h) x _ Hx). now rewrite IH.
  - now rewrite (filter_cons_False (fun j => j <> h) x l Hx).
Qed.

(** X12: [startHeartbeat()] followed by [stopHeartbeat()] leaves exactly
    the timers that were live before; [stopHeartbeat()] before any
    [startHeartbeat()] does nothing; and a repeated [stopHeartbeat()] does
    nothing more than the first. *)
Theorem start_stop_heartbeat_round_trip (w : world) :
  fresh_handles w ->
  intervals (snd (stopHeartbeat (snd (startHeartbeat w)))) = intervals w /\
  (_heartbeatInterval (broker w) = None -> stopHeartbeat w = (Normal tt, w)) /\
  snd (stopHeartbeat (snd (stopHeartbeat w))) = snd (stopHeartbeat w).
Proof.
  intros Hfresh. split; [|split].
  - unfold stopHeartbeat, startHeartbeat, clearInterval, setInterval. js_run.
    rewrite filter_app, (filter_all_below _ _ Hfresh).
    rewrite filter_cons_False by (intros H; now apply H).
    cbn. apply app_nil_r.
  - intros Hnone. unfold stopHeartbeat, clearInterval. js_run. rewrite Hnone.
    now destruct w.
  - unfold stopHeartbeat, clearInterval. js_run.
    destruct (_heartbeatInterval (broker w)); [|reflexivity].
    now rewrite filter_twice.
Qed.

Lemma start_stop_heartbeat_round_trip_witness :
  let w := snd (startHeartbeat (sample_world [])) in
  intervals (snd (stopHeartbeat (snd (startHeartbeat w)))) = intervals w.
Proof.
  intros w.
  refine (proj1 (start_stop_heartbeat_round_trip w _)).
  repeat constructor.
Defined.

Lemma channel_requests_app tr evs :
  channel_requests (tr ++ evs) = channel_requests tr ++ channel_requests evs.
Proof. unfold channel_requests. apply flat_map_app. Qed.

Lemma on_metadata_trace r w :
  trace (snd (promise_job (on_supplicant_metadata r) w))
  = trace w ++ [StateMachineTransition r; ConsoleLog [VStr "supplicantMetaData"; r]].
Proof.
  unfold on_supplicant_metadata, setRemoteMetaData.
  destruct r; js_run; rewrite <- app_assoc; reflexivity.
Qed.

(** A call that finds no cached metadata issues exactly one request. *)
Lemma getSupplicantMetadata_uncached_requests w :
  truthy (cached_metadata w) = false ->
  length (channel_requests (trace (snd (getSupplicantMetadata w))))
  = S (length (channel_requests (trace w))).
Proof.
  intros Hc. rewrite (getSupplicantMetadata_uncached _ Hc).
  destruct (outcome_promise _) as [r|e|]; cbn [promise_then];
    rewrite ?on_metadata_trace; unfold ret; cbn [snd];
    rewrite trace_after_call, ?channel_requests_app, ?length_app; simpl; lia.
Qed.

(** X13: when the metadata request fails (the channel rejects it or throws
    while handling it), [getSupplicantMetadata()] rejects with that error
    and caches nothing, so the next call issues a fresh request instead of
    answering from the cache. *)
Theorem getSupplicantMetadata_failure_not_cached
    (w : world) (e : value) (rest : list chan_outcome) :
  truthy (cached_metadata w) = false ->
  channel_script w = Rejects e :: rest \/ channel_script w = ThrowsSync e :: rest ->
  let w1 := snd (getSupplicantMetadata w) in
  fst (getSupplicantMetadata w) = Normal (Rejected e) /\
  broker w1 = broker w /\
  length (channel_requests (trace (snd (getSupplicantMetadata w1))))
    = 2 + length (channel_requests (trace w)).
Proof.
  intros Hc Hs w1.
  assert (E : getSupplicantMetadata w =
              (Normal (Rejected e),
               after_channel_call w (request_events w PAIR_REQUEST_SUPPLICANT_METADATA))).
  { rewrite (getSupplicantMetadata_uncached _ Hc). destruct Hs as [-> | ->]; reflexivity. }
  assert (Hb : broker w1 = broker w) by (subst w1; now rewrite E).
  split; [now rewrite E|]. split; [exact Hb|].
  rewrite getSupplicantMetadata_uncached_requests
    by (unfold cached_metadata; rewrite Hb; exact Hc).
  subst w1. now rewrite getSupplicantMetadata_uncached_requests.
Qed.

Lemma getSupplicantMetadata_failure_not_cached_witness :
  let w := sample_world [Rejects (VStr "offline"); Resolves (VObj [("confirmation_code", VStr "1234")])] in
  let w1 := snd (getSupplicantMetadata w) in
  fst (getSupplicantMetadata w) = Normal (Rejected (VStr "offline")) /\
  length (channel_requests (trace (snd (getSupplicantMetadata w1)))) = 2.
Proof.
  intros w w1.
  destruct (getSupplicantMetadata_failure_not_cached w (VStr "offline")
              [Resolves (VObj [("confirmation_code", VStr "1234")])]
              eq_refl (or_introl eq_refl)) as (H1 & _ & H3).
  exact (conj H1 H3).
Defined.

(** X14: [fetch()] runs its steps strictly in sequence.  When
    [super.fetch()] throws, rejects or never settles, no metadata is
    requested and no timer is started; when the metadata step rejects, the
    heartbeat is not started and [fetch()] rejects with the same error;
    when the metadata step resolves, exactly one interval timer is created
    and its handle is the one the broker stores. *)
Theorem fetch_runs_in_sequence
    (super_fetch : JS world (promise value)) (w w0 : world)
    (c0 : completion (promise value)) :
  super_fetch w = (c0, w0) ->
  let done := fetch super_fetch w in
  (forall e, c0 = Throw e \/ c0 = Normal (Rejected e) -> done = (Normal (Rejected e), w0)) /\
  (c0 = Normal Pending -> done = (Normal Pending, w0)) /\
  (forall v, c0 = Normal (Fulfilled v) ->
     (forall e, fst (getSupplicantMetadata w0) = Normal (Rejected e) ->
        fst done = Normal (Rejected e) /\ timers (snd done) = timers w0) /\
     (forall m, fst (getSupplicantMetadata w0) = Normal (Fulfilled m) ->
        fst done = Normal (Fulfilled VUndefined) /\
        intervals (snd done) = intervals w0 ++ [next_handle w0] /\
        _heartbeatInterval (broker (snd done)) = Some (next_handle w0))).
Proof.
  intros Hsuper done.
  assert (E : done =
    match c0 with
    | Throw e | Normal (Rejected e) => (Normal (Rejected e), w0)
    | Normal Pending => (Normal Pending, w0)
    | Normal (Fulfilled _) =>
        match getSupplicantMetadata w0 with
        | (Normal (Fulfilled _), w1) =>
            (Normal (Fulfilled VUndefined), snd (startHeartbeat w1))
        | (Normal (Rejected e), w1) | (Throw e, w1) => (Normal (Rejected e), w1)
        | (Normal Pending, w1) => (Normal Pending, w1)
        end
    end).
  { subst done. unfold fetch, promise_job, bind. rewrite Hsuper.
    destruct c0 as [[v|e|]|e]; try reflexivity.
    cbn [promise_then]. unfold promise_job.
    destruct (getSupplicantMetadata w0) as [[[m|e|]|e] w1]; reflexivity. }
  clearbody done. subst done.
  split; [|split].
  - intros e [-> | ->]; reflexivity.
  - intros ->. reflexivity.
  - intros v ->.
    pose proof (getSupplicantMetadata_timers w0) as Ht.
    destruct (getSupplicantMetadata w0) as [[[m'|e'|]|e'] w1]; cbn [fst snd] in *;
      (split; [intros e [= ->] | intros m [= ->]]); auto.
    unfold timers in Ht. injection Ht as Hi Hn Hh.
    cbn. now rewrite Hi, Hn.
Qed.

Lemma fetch_runs_in_sequence_witness :
  let w := sample_world [Resolves (VObj [("confirmation_code", VStr "1234")])] in
  let done := fetch (ret (Fulfilled VUndefined)) w in
  fst done = Normal (Fulfilled VUndefined) /\
  intervals (snd done) = [1] /\
  _heartbeatInterval (broker (snd done)) = Some 1.
Proof.
  intros w done.
  exact (proj2 (proj2 (proj2 (fetch_runs_in_sequence (ret (Fulfilled VUndefined))
                                 w w (Normal (Fulfilled VUndefined)) eq_refl))
                  VUndefined eq_refl)
           (VObj [("confirmation_code", VStr "1234")]) eq_refl).
Defined.

Lemma startHeartbeats_state k : forall w,
  intervals (startHeartbeats k w) = intervals w ++ seq (next_handle w) k /\
  next_handle (startHeartbeats k w) = next_handle w + k /\
  trace (startHeartbeats k w) = trace w /\
  (0 < k -> _heartbeatInterval (broker (startHeartbeats k w))
            = Some (next_handle w + k - 1)).
Proof.
  induction k as [|k IH]; intros w; cbn [startHeartbeats].
  - rewrite app_nil_r. repeat split; try lia.
  - destruct (IH (snd (startHeartbeat w))) as (Hi & Hn & Ht & Hh).
    assert (Hi0 : intervals (snd (startHeartbeat w)) = intervals w ++ [next_handle w])
      by reflexivity.
    assert (Hn0 : next_handle (snd (startHeartbeat w)) = S (next_handle w))
      by reflexivity.
    assert (Ht0 : trace (snd (startHeartbeat w)) = trace w) by reflexivity.
    assert (Hh0 : _heartbeatInterval (broker (snd (startHeartbeat w)))
                  = Some (next_handle w)) by reflexivity.
    rewrite Hi, Hn, Ht, Hi0, Hn0, Ht0, <- app_assoc.
    split; [reflexivity|]. split; [lia|]. split; [reflexivity|].
    intros _. destruct k as [|k].
    + cbn [startHeartbeats]. rewrite Hh0. f_equal. lia.
    + rewrite Hh by lia. rewrite Hn0. f_equal. lia.
Qed.

(** X15: every [startHeartbeat()] adds one more live timer: after [k]
    calls there are [k] new intervals, a tick issues one heartbeat request
    for each live interval, and one [stopHeartbeat()] clears only the last
    of them. *)
Theorem repeated_startHeartbeat_accumulates (w : world) (k : nat) :
  fresh_handles w ->
  0 < k ->
  let wk := startHeartbeats k w in
  intervals wk = intervals w ++ seq (next_handle w) k /\
  heartbeat_requests (trace (tick wk))
    = heartbeat_requests (trace w) + length (intervals w) + k /\
  intervals (snd (stopHeartbeat wk)) = intervals w ++ seq (next_handle w) (k - 1).
Proof.
  intros Hfresh Hk wk. subst wk.
  destruct (startHeartbeats_state k w) as (Hi & _ & Ht & Hh).
  specialize (Hh Hk). split; [exact Hi|]. split.
  - destruct (fire_all_frame (intervals (startHeartbeats k w)) (startHeartbeats k w))
      as (_ & _ & _ & Hr).
    unfold tick. rewrite Hr, Ht, Hi, length_app, length_seq. lia.
  - unfold stopHeartbeat, clearInterval. js_run. rewrite Hh, Hi.
    destruct k as [|k]; [lia|].
    replace (next_handle w + S k - 1) with (next_handle w + k) by lia.
    replace (S k - 1) with k by lia.
    rewrite seq_S, app_assoc, filter_app.
    rewrite filter_cons_False by (intros H; now apply H).
    cbn. rewrite app_nil_r. apply filter_all_below.
    apply Forall_app. split.
    + eapply Forall_impl; [exact Hfresh|]. intros x Hx. simpl in Hx. lia.
    + apply Forall_forall. intros x Hx. apply list_elem_of_In, in_seq in Hx. lia.
Qed.

Lemma repeated_startHeartbeat_accumulates_witness :
  let w3 := startHeartbeats 3 (sample_world []) in
  intervals w3 = [1; 2; 3] /\
  heartbeat_requests (trace (tick w3)) = 3 /\
  intervals (snd (stopHeartbeat w3)) = [1; 2].
Proof.
  intros w3.
  refine (repeated_startHeartbeat_accumulates (sample_world []) 3 _ _).
  - constructor.
  - lia.
Defined.

End AuthorityFacts.

(** * Properties of the base authentication broker *)

Module BaseFacts.
Import Base.

Ltac base_run :=
  unfold hasCapability, getCapability, setCapability, unsetCapability,
    getBehavior, setBehavior, this_set, emit, promise_then, promise_then2,
    promise_job, bind, ret, throw, gets, modify, with_broker, with_storage in *;
  simpl in *.

(** ** Capabilities *)

Lemma deepEqual_refl : forall v, deepEqual v v = true.
Proof.
  fix IH 1. intros [ | |b|n| |s|fs]; simpl; try reflexivity.
  - now destruct b.
  - apply Z.eqb_refl.
  - apply String.eqb_refl.
  - revert fs. fix IHfs 1. intros [|[k x] fs]; [reflexivity|].
    now rewrite String.eqb_refl, (IH x), (IHfs fs).
Qed.

Lemma capability_after_set w name v :
  capabilities (broker (snd (setCapability name v w))) !! name = Some v.
Proof. base_run. apply lookup_insert_eq. Qed.

Lemma hasCapability_after_set w name v :
  fst (hasCapability name (snd (setCapability name v w))) = Normal (truthy v).
Proof. base_run. now rewrite lookup_insert_eq. Qed.

(** C8: after [setCapability(name, v)] with a truthy [v], [hasCapability]
    is true and [getCapability] returns a value deep-equal to [v] (it is
    [v]); after [unsetCapability(name)], [hasCapability] is false and
    [getCapability] is [undefined]; and when the stored value is falsy, in
    particular [false], [undefined], [null] or [0], [hasCapability] is
    false. *)
Theorem capability_round_trip (w : world) (name : string) (v : value) :
  truthy v = true ->
  let w1 := snd (setCapability name v w) in
  let w2 := snd (unsetCapability name w1) in
  fst (hasCapability name w1) = Normal true /\
  fst (getCapability name w1) = Normal v /\
  (exists got, fst (getCapability name w1) = Normal got /\ deepEqual got v = true) /\
  fst (hasCapability name w2) = Normal false /\
  fst (getCapability name w2) = Normal VUndefined /\
  (forall f, truthy f = false ->
     fst (hasCapability name (snd (setCapability name f w))) = Normal false) /\
  Forall (fun f => fst (hasCapability name (snd (setCapability name f w))) = Normal false)
         [VBool false; VUndefined; VNull; VNum 0].
Proof.
  intros Hv w1 w2. subst w1 w2.
  assert (Hget : fst (getCapability name (snd (setCapability name v w))) = Normal v).
  { base_run. now rewrite lookup_insert_eq. }
  assert (Hfalsy : forall f, truthy f = false ->
            fst (hasCapability name (snd (setCapability name f w))) = Normal false).
  { intros f Hf. now rewrite hasCapability_after_set, Hf. }
  split; [now rewrite hasCapability_after_set, Hv|].
  split; [exact Hget|].
  split; [exists v; split; [exact Hget|apply deepEqual_refl]|].
  split; [base_run; now rewrite lookup_delete_eq|].
  split; [base_run; now rewrite lookup_delete_eq|].
  split; [exact Hfalsy|].
  repeat constructor; apply Hfalsy; reflexivity.
Qed.

Lemma capability_round_trip_witness :
  let w := new_broker false (VStr "fx_fennec_v1") [] in
  let v := VObj [("key", VStr "value")] in
  let w1 := snd (setCapability "some-capability" v w) in
  fst (hasCapability "some-capability" w1) = Normal true /\
  fst (getCapability "some-capability" w1) = Normal v /\
  fst (getCapability "some-capability" (snd (unsetCapability "some-capability" w1)))
    = Normal VUndefined.
Proof.
  intros w v w1.
  destruct (capability_round_trip w "some-capability" v eq_refl)
    as (H1 & H2 & _ & _ & H5 & _).
  exact (conj H1 (conj H2 H5)).
Defined.

(** ** Lifecycle hooks *)

Lemma default_behavior_registered h :
  defaultBehaviors !! hook_name h = Some (default_behavior h).
Proof. destruct h as [[] []]; vm_compute; reflexivity. Qed.

Lemma behaviors_after_overrides name ovs : forall w,
  ~ In name (map fst ovs) ->
  behaviors (broker (override_behaviors ovs w)) !! name = behaviors (broker w) !! name.
Proof.
  induction ovs as [|[n b] ovs IH]; intros w Hnot; simpl; [reflexivity|].
  simpl in Hnot. rewrite IH by tauto.
  base_run. apply lookup_insert_ne. tauto.
Qed.

Lemma getBehavior_found w name b :
  behaviors (broker w) !! name = Some b -> getBehavior name w = (Normal b, w).
Proof. intros H. base_run. now rewrite H. Qed.

(** A hook resolves to the behavior registered under its name. *)
Lemma run_hook_registered h account w b :
  behaviors (broker w) !! hook_name h = Some b ->
  fst (run_hook h account w) = Normal (Fulfilled b).
Proof.
  intros H. unfold run_hook.
  destruct h as [[] []]; cbn [hook_phase hook_operation];
    try (unfold bind; now rewrite (getBehavior_found _ _ _ H)).
  all: unfold unpersistVerificationData; base_run; now rewrite H.
Qed.

(** C7: every lifecycle hook whose behavior was not overridden resolves
    to a behavior with [halt] undefined, except
    [afterSignInConfirmationPoll] and [afterSignUpConfirmationPoll], which
    resolve to [halt = true] with endpoint [signin_confirmed] and
    [signup_confirmed]. *)
Theorem default_hooks_continue_except_confirmation_polls
    (h : hook) (account : Account) (ovs : list (string * Behavior))
    (fxaStatusSupported : bool) (context : value) (script : list chan_outcome) :
  ~ In (hook_name h) (map fst ovs) ->
  let w := override_behaviors ovs (new_broker fxaStatusSupported context script) in
  exists b,
    fst (run_hook h account w) = Normal (Fulfilled b) /\
    match hook_phase h, hook_operation h with
    | after, SignInConfirmationPoll =>
        halt b = Some true /\ endpoint b = Some "signin_confirmed"
    | after, SignUpConfirmationPoll =>
        halt b = Some true /\ endpoint b = Some "signup_confirmed"
    | _, _ => halt b = None
    end.
Proof.
  intros Hnot w. exists (default_behavior h). split.
  - apply run_hook_registered. subst w.
    rewrite behaviors_after_overrides by exact Hnot.
    apply default_behavior_registered.
  - destruct h as [[] []]; simpl; auto.
Qed.

Lemma default_hooks_continue_except_confirmation_polls_witness :
  let w := override_behaviors [("new behavior", {| halt := Some true; endpoint := None |})]
             (new_broker false (VStr "fx_fennec_v1") []) in
  exists b,
    fst (run_hook afterSignUpConfirmationPoll {| uid := "users_uid" |} w)
      = Normal (Fulfilled b) /\
    halt b = Some true /\ endpoint b = Some "signup_confirmed".
Proof.
  intros w.
  refine (default_hooks_continue_except_confirmation_polls
            afterSignUpConfirmationPoll {| uid := "users_uid" |}
            [("new behavior", {| halt := Some true; endpoint := None |})]
            false (VStr "fx_fennec_v1") [] _).
  simpl. intros [H|[]]. discriminate H.
Defined.

(** ** Status fetch *)

Section StatusFetchFacts.

Variable AuthErrors_is : value -> string -> bool.

Lemma fetch_performs_status_fetch w :
  fst (hasCapability "fxaStatus" w) = Normal true ->
  fetch AuthErrors_is w = promise_job (_fetchFxaStatus AuthErrors_is) w.
Proof.
  intros H. unfold fetch, promise_job, hasCapability, getCapability in *.
  unfold bind, gets, ret in *. simpl in *.
  injection H as H. now rewrite H.
Qed.

(** C6: when the status request fails with an error classified as invalid
    web channel, [_fetchFxaStatus] (and [fetch], when it performs the
    status fetch) resolves and leaves the [fxaStatus] capability false;
    when it fails with any other error, both reject with that same
    error. *)
Theorem status_fetch_error_classification
    (w : world) (err : value) (rest : list chan_outcome) :
  channel_script w = Rejects err :: rest ->
  let direct := _fetchFxaStatus AuthErrors_is w in
  let via_fetch := fetch AuthErrors_is w in
  (AuthErrors_is err "INVALID_WEB_CHANNEL" = true ->
     fst direct = Normal (Fulfilled VUndefined) /\
     fst (getCapability "fxaStatus" (snd direct)) = Normal (VBool false) /\
     fst (hasCapability "fxaStatus" (snd direct)) = Normal false /\
     (fst (hasCapability "fxaStatus" w) = Normal true ->
        fst via_fetch = Normal (Fulfilled VUndefined) /\
        fst (getCapability "fxaStatus" (snd via_fetch)) = Normal (VBool false))) /\
  (AuthErrors_is err "INVALID_WEB_CHANNEL" = false ->
     fst direct = Normal (Rejected err) /\
     (fst (hasCapability "fxaStatus" w) = Normal true ->
        fst via_fetch = Normal (Rejected err))).
Proof.
  intros Hs direct via_fetch.
  assert (Hd : AuthErrors_is err "INVALID_WEB_CHANNEL" = true ->
               fst direct = Normal (Fulfilled VUndefined) /\
               fst (getCapability "fxaStatus" (snd direct)) = Normal (VBool false)).
  { intros Hc. subst direct. unfold _fetchFxaStatus, channel_request_status, take_outcome.
    base_run. rewrite Hs. simpl. rewrite Hc. simpl.
    rewrite lookup_insert_eq. auto. }
  assert (Hr : AuthErrors_is err "INVALID_WEB_CHANNEL" = false ->
               fst direct = Normal (Rejected err)).
  { intros Hc. subst direct. unfold _fetchFxaStatus, channel_request_status, take_outcome.
    base_run. rewrite Hs. simpl. now rewrite Hc. }
  split.
  - intros Hc. destruct (Hd Hc) as (H1 & H2).
    split; [exact H1|]. split; [exact H2|]. split.
    + unfold hasCapability, bind, ret in *.
      destruct (getCapability "fxaStatus" direct.2) as [c w']. simpl in H2. now subst c.
    + intros Hcap. subst via_fetch. rewrite (fetch_performs_status_fetch _ Hcap).
      unfold promise_job. fold direct.
      destruct direct as [c w']. simpl in *. now subst c.
  - intros Hc. split; [exact (Hr Hc)|].
    intros Hcap. subst via_fetch. rewrite (fetch_performs_status_fetch _ Hcap).
    unfold promise_job. fold direct.
    destruct direct as [c w']. specialize (Hr Hc). simpl in *. now subst c.
Qed.

End StatusFetchFacts.

Lemma status_fetch_error_classification_witness :
  let swallowed :=
    fetch sample_AuthErrors_is
      (new_broker true (VStr "fx_fennec_v1") [Rejects (toError "INVALID_WEB_CHANNEL")]) in
  let propagated :=
    fetch sample_AuthErrors_is
      (new_broker true (VStr "fx_fennec_v1") [Rejects (toError "UNEXPECTED_ERROR")]) in
  (fst swallowed = Normal (Fulfilled VUndefined) /\
   fst (getCapability "fxaStatus" (snd swallowed)) = Normal (VBool false)) /\
  fst propagated = Normal (Rejected (toError "UNEXPECTED_ERROR")).
Proof.
  intros swallowed propagated. split.
  - exact (proj2 (proj2 (proj2 (proj1
             (status_fetch_error_classification sample_AuthErrors_is
                (new_broker true (VStr "fx_fennec_v1")
                   [Rejects (toError "INVALID_WEB_CHANNEL")])
                (toError "INVALID_WEB_CHANNEL") [] eq_refl) eq_refl))) eq_refl).
  - exact (proj2 (proj2
             (status_fetch_error_classification sample_AuthErrors_is
                (new_broker true (VStr "fx_fennec_v1")
                   [Rejects (toError "UNEXPECTED_ERROR")])
                (toError "UNEXPECTED_ERROR") [] eq_refl) eq_refl) eq_refl).
Defined.

(** ** The suite's assertions on the model *)

Example suite_default_capabilities :
  let w := new_broker false (VStr "fx_fennec_v1") [] in
  fst (hasCapability "some-capability" w) = Normal false /\
  fst (hasCapability "signup" w) = Normal true /\
  fst (hasCapability "handleSignedInNotification" w) = Normal true /\
  fst (hasCapability "emailVerificationMarketingSnippet" w) = Normal true /\
  fst (getCapability "missing-capability" w) = Normal VUndefined.
Proof. vm_compute. repeat split. Qed.

Example suite_fetch_skips_status_without_capability :
  let w := snd (setCapability "fxaStatus" (VBool false)
                  (new_broker true (VStr "fx_fennec_v1") [Resolves (VObj [])])) in
  status_requests (trace (snd (fetch sample_AuthErrors_is w))) = 0.
Proof. vm_compute. reflexivity. Qed.

Example suite_fetch_status_once_with_capability :
  let w := snd (setCapability "fxaStatus" (VBool true)
                  (new_broker false (VStr "fx_fennec_v1") [Resolves (VObj [])])) in
  status_requests (trace (snd (fetch sample_AuthErrors_is w))) = 1.
Proof. vm_compute. reflexivity. Qed.

Example suite_fetchFxaStatus_stores_signed_in_user :
  let user := VObj [("email", VStr "testuser@testuser.com")] in
  let w := new_broker false (VStr "fx_fennec_v1") [Resolves (VObj [("signedInUser", user)])] in
  attributes (broker (snd (_fetchFxaStatus sample_AuthErrors_is w)))
    !! "browserSignedInAccount" = Some user.
Proof. vm_compute. reflexivity. Qed.

Example suite_getBehavior_not_set :
  fst (getBehavior "NOT_SET" (new_broker false (VStr "fx_fennec_v1") []))
  = Throw (Error "behavior not found for: NOT_SET").
Proof. vm_compute. reflexivity. Qed.

Example suite_persist_then_unpersist :
  let account := {| uid := "users_uid" |} in
  let w := new_broker false (VStr "fx_fennec_v1") [] in
  let w1 := snd (persistVerificationData account w) in
  storage w1 !! ("context", "users_uid") = Some (VObj [("context", VStr "fx_fennec_v1")]) /\
  storage (snd (unpersistVerificationData account w1)) !! ("context", "users_uid") = None.
Proof. vm_compute. split; reflexivity. Qed.

(** ** Further properties of the base broker *)

Section FetchFacts.

Variable AuthErrors_is : value -> string -> bool.

Lemma fetch_without_capability w :
  truthy (fxaStatus_capability w) = false ->
  fetch AuthErrors_is w = (Normal (Fulfilled VUndefined), w).
Proof.
  unfold fxaStatus_capability. intros H. unfold fetch. base_run. now rewrite H.
Qed.

(** X17 (base broker as modelled from the spec and its suite): once a
    status fetch has failed with an invalid-web-channel error, a later
    [fetch()] resolves without contacting the host again. *)
Theorem fetch_after_invalid_web_channel
    (w : world) (err : value) (rest : list chan_outcome) :
  channel_script w = Rejects err :: rest ->
  AuthErrors_is err "INVALID_WEB_CHANNEL" = true ->
  truthy (fxaStatus_capability w) = true ->
  let w1 := snd (fetch AuthErrors_is w) in
  fst (fetch AuthErrors_is w) = Normal (Fulfilled VUndefined) /\
  fetch AuthErrors_is w1 = (Normal (Fulfilled VUndefined), w1).
Proof.
  intros Hs Herr Hc w1. subst w1.
  assert (E : fetch AuthErrors_is w =
              (Normal (Fulfilled VUndefined),
               snd (setCapability "fxaStatus" (VBool false)
                      (snd (channel_request_status w))))).
  { unfold fetch, fxaStatus_capability in *. unfold _fetchFxaStatus,
      channel_request_status, take_outcome. base_run.
    rewrite Hc, Hs. simpl. now rewrite Herr. }
  rewrite E. split; [reflexivity|]. cbn [snd].
  apply fetch_without_capability.
  unfold fxaStatus_capability. now rewrite capability_after_set.
Qed.

End FetchFacts.

Lemma fetch_after_invalid_web_channel_witness :
  let w := new_broker true (VStr "fx_fennec_v1")
             [Rejects (toError "INVALID_WEB_CHANNEL"); Resolves (VObj [])] in
  let w1 := snd (fetch sample_AuthErrors_is w) in
  fst (fetch sample_AuthErrors_is w) = Normal (Fulfilled VUndefined) /\
  fetch sample_AuthErrors_is w1 = (Normal (Fulfilled VUndefined), w1).
Proof.
  intros w w1.
  exact (fetch_after_invalid_web_channel sample_AuthErrors_is w
           (toError "INVALID_WEB_CHANNEL") [Resolves (VObj [])] eq_refl eq_refl eq_refl).
Defined.

End BaseFacts.

(** * Properties of the recovery-code input element *)

Module RecoveryCodeFacts.
Import RecoveryCode.

Lemma trimStart_all s : all_whitespace s = true -> trimStart s = [].
Proof.
  induction s as [|c s IH]; simpl; [reflexivity|].
  intros H. apply andb_prop in H as [Hc Hs]. rewrite Hc. auto.
Qed.

Lemma trimStart_clean s : clean_start (trimStart s).
Proof.
  induction s as [|c s IH]; simpl; [exact I|].
  destruct (is_whitespace c) eqn:E; [exact IH|exact E].
Qed.

Lemma trimStart_id s : clean_start s -> trimStart s = s.
Proof. destruct s as [|c s]; simpl; [reflexivity|]. now intros ->. Qed.

Lemma trimStart_whitespace_iff s :
  all_whitespace (trimStart s) = all_whitespace s.
Proof.
  induction s as [|c s IH]; simpl; [reflexivity|].
  destruct (is_whitespace c) eqn:E; simpl; [exact IH|now rewrite E].
Qed.

Lemma trimStart_app_whitespace ws s :
  all_whitespace ws = true -> trimStart (ws ++ s) = trimStart s.
Proof.
  induction ws as [|c ws IH]; simpl; [reflexivity|].
  intros H. apply andb_prop in H as [Hc Hs]. rewrite Hc. auto.
Qed.

Lemma trimStart_app s t :
  trimStart (s ++ t) = if all_whitespace s then trimStart t else trimStart s ++ t.
Proof.
  induction s as [|c s IH]; simpl; [reflexivity|].
  destruct (is_whitespace c); simpl; [exact IH|reflexivity].
Qed.

Lemma trimEnd_nil_iff s : trimEnd s = [] <-> all_whitespace s = true.
Proof.
  induction s as [|c s IH]; simpl; [tauto|].
  destruct (trimEnd s) as [|k kept] eqn:E.
  - destruct (is_whitespace c); simpl.
    + split; [intros _; now apply IH|reflexivity].
    + split; discriminate.
  - split; [discriminate|].
    intros H. apply andb_prop in H as [_ Hs]. apply IH in Hs. discriminate.
Qed.

Lemma trimEnd_app_whitespace s ws :
  all_whitespace ws = true -> trimEnd (s ++ ws) = trimEnd s.
Proof.
  intros H. induction s as [|c s IH]; simpl.
  - now apply trimEnd_nil_iff.
  - now rewrite IH.
Qed.

Lemma trimEnd_idempotent s : trimEnd (trimEnd s) = trimEnd s.
Proof.
  induction s as [|c s IH]; simpl; [reflexivity|].
  destruct (trimEnd s) as [|k kept] eqn:E.
  - destruct (is_whitespace c) eqn:Ec; simpl; [reflexivity|now rewrite Ec].
  - change (trimEnd (c :: k :: kept)) with
      (match trimEnd (k :: kept) with
       | [] => if is_whitespace c then [] else [c]
       | kept' => c :: kept'
       end).
    now rewrite IH.
Qed.

Lemma trimEnd_clean_start s : clean_start s -> clean_start (trimEnd s).
Proof.
  destruct s as [|c s]; simpl; [auto|].
  intros Hc. destruct (trimEnd s); [now rewrite Hc|exact Hc].
Qed.

(** The last code unit [trimEnd] keeps is not white space. *)
Lemma trimEnd_clean_end s : clean_end (trimEnd s).
Proof.
  unfold clean_end. induction s as [|c s IH]; simpl; [exact I|].
  destruct (trimEnd s) as [|k kept] eqn:E.
  - destruct (is_whitespace c) eqn:Ec; simpl; [exact I|exact Ec].
  - simpl in *. destruct (rev kept ++ [k]) as [|x xs] eqn:Er.
    + now destruct (rev kept).
    + simpl. exact IH.
Qed.

Lemma trim_idempotent s : trim (trim s) = trim s.
Proof.
  unfold trim.
  rewrite (trimStart_id (trimEnd (trimStart s))).
  - apply trimEnd_idempotent.
  - apply trimEnd_clean_start, trimStart_clean.
Qed.

Lemma trim_nil_iff s : trim s = [] <-> all_whitespace s = true.
Proof. unfold trim. now rewrite trimEnd_nil_iff, trimStart_whitespace_iff. Qed.

Lemma trim_surrounding_whitespace before s after :
  all_whitespace before = true -> all_whitespace after = true ->
  trim (before ++ s ++ after) = trim s.
Proof.
  intros Hb Ha. unfold trim.
  rewrite (trimStart_app_whitespace _ _ Hb), trimStart_app.
  destruct (all_whitespace s) eqn:Hs.
  - rewrite (trimStart_all _ Ha), (trimStart_all _ Hs). reflexivity.
  - now apply trimEnd_app_whitespace.
Qed.

(** X1: [validate()] throws RECOVERY_CODE_REQUIRED exactly when the text
    in the input is empty or white space only, whatever the validator
    says; it throws INVALID_RECOVERY_CODE exactly when the text is not
    blank and the validator reports an error for the trimmed text; and it
    returns exactly when the validator accepts the trimmed, non-blank
    text. *)
Theorem validate_outcome (recoveryCode_error : jsstring -> bool) (el : element) :
  (validate recoveryCode_error el = Throws RECOVERY_CODE_REQUIRED
     <-> all_whitespace (raw_value el) = true) /\
  (validate recoveryCode_error el = Throws INVALID_RECOVERY_CODE
     <-> all_whitespace (raw_value el) = false /\
         recoveryCode_error (trim (raw_value el)) = true) /\
  (validate recoveryCode_error el = Returns
     <-> all_whitespace (raw_value el) = false /\
         recoveryCode_error (trim (raw_value el)) = false).
Proof.
  unfold validate, val.
  pose proof (trim_nil_iff (raw_value el)) as Hnil.
  destruct (trim (raw_value el)) as [|c t] eqn:Et; simpl.
  - assert (Ha : all_whitespace (raw_value el) = true) by now apply Hnil.
    rewrite Ha. intuition congruence.
  - assert (Ha : all_whitespace (raw_value el) = false).
    { destruct (all_whitespace (raw_value el)); [|reflexivity].
      pose proof (proj2 Hnil eq_refl) as X. discriminate X. }
    rewrite Ha. destruct (recoveryCode_error (c :: t)); intuition congruence.
Qed.

(** X2: white space typed before or after the code does not change what
    [validate()] does. *)
Theorem validate_ignores_surrounding_whitespace
    (recoveryCode_error : jsstring -> bool) (el : element) (before s after : jsstring) :
  all_whitespace before = true -> all_whitespace after = true ->
  validate recoveryCode_error (val_set el (before ++ s ++ after))
  = validate recoveryCode_error (val_set el s).
Proof.
  intros Hb Ha. unfold validate, val, val_set. simpl.
  now rewrite (trim_surrounding_whitespace _ _ _ Hb Ha).
Qed.

Lemma validate_ignores_surrounding_whitespace_witness :
  let el := {| attr_type := Some "text"; classes := ["recovery-code"]; raw_value := [] |} in
  validate sample_recoveryCode_error (val_set el (of_ascii "  " ++ of_ascii "abcd1234" ++ [160; 10]%N))
  = validate sample_recoveryCode_error (val_set el (of_ascii "abcd1234")).
Proof.
  intros el.
  exact (validate_ignores_surrounding_whitespace sample_recoveryCode_error el
           (of_ascii "  ") (of_ascii "abcd1234") [160; 10]%N eq_refl eq_refl).
Defined.

(** X3: the text [val()] returns neither starts nor ends with white
    space, and writing it back with [val(v)] does not change what [val()]
    returns. *)
Theorem val_is_trimmed_and_stable (el : element) :
  clean_start (val el) /\ clean_end (val el) /\
  val (val_set el (val el)) = val el.
Proof.
  unfold val, val_set. simpl. split; [|split].
  - apply trimEnd_clean_start, trimStart_clean.
  - apply trimEnd_clean_end.
  - apply trim_idempotent.
Qed.

Example validate_blank_nbsp :
  validate sample_recoveryCode_error
    {| attr_type := Some "text"; classes := ["recovery-code"]; raw_value := [160; 32; 9]%N |}
  = Throws RECOVERY_CODE_REQUIRED.
Proof. reflexivity. Qed.

End RecoveryCodeFacts.

(** * Properties of the application start *)

Module StartAppFacts.
Import StartApp.

Ltac start_cbn :=
  cbn [fst snd trace Session _router window_router window_translator _config
       _metrics location_search with_Session negb] in *.

(** Runs the monadic code of a step on a world given by its fields,
    leaving session maps and traces as they are written. *)
Ltac start_eval :=
  cbv [initializeConfig initializeL10n useConfig allResourcesReady getChannel
       createMetrics router_navigate _searchParam Session_set Session_clear
       with_Session emit promise_then promise_job get_prop channel_for
       bind ret throw gets modify
       fst snd trace Session _router window_router window_translator _config
       _metrics location_search].

Ltac start_run :=
  unfold setSessionValueFromUrl, initOAuthService, _searchParam, Session_set,
    Session_clear, router_navigate, emit, promise_then, promise_job,
    get_prop, bind, ret, throw, gets, modify in *;
  start_cbn.

(** ** The session and the URL *)

Lemma from_url_truthy w p :
  session_truthy (from_url w p) = truthy (location_search w p).
Proof. unfold from_url. now destruct (truthy (location_search w p)) eqn:E. Qed.

Lemma from_url_with_Session f w p : from_url (with_Session f w) p = from_url w p.
Proof. reflexivity. Qed.

Lemma setSessionValueFromUrl_run p sn w :
  setSessionValueFromUrl p sn w =
  (Normal tt,
   with_Session (fun s => match from_url w p with
                          | Some v => <[session_name p sn := v]> s
                          | None => delete (session_name p sn) s
                          end) w).
Proof.
  unfold from_url. start_run.
  destruct (truthy (location_search w p)); reflexivity.
Qed.

(** [initSessionFromUrl] only rewrites the session. *)
Lemma initSessionFromUrl_run w :
  exists s,
    initSessionFromUrl w = (Normal tt, with_Session (fun _ => s) w) /\
    s !! "redirectTo" = from_url w "redirectTo" /\
    s !! "context" = from_url w "context" /\
    s !! "service" = match from_url w "service" with
                     | Some v => Some v
                     | None => from_url w "client_id"
                     end /\
    (forall k, k <> "service" -> k <> "redirectTo" -> k <> "context" ->
               s !! k = Session w !! k).
Proof.
  unfold initSessionFromUrl, initOAuthService, bind.
  rewrite setSessionValueFromUrl_run. cbv beta iota.
  rewrite setSessionValueFromUrl_run. cbv beta iota.
  rewrite setSessionValueFromUrl_run. cbv beta iota.
  unfold gets. rewrite ?from_url_with_Session. cbn [with_Session Session].
  rewrite ?from_url_with_Session.
  match goal with
  | |- context [session_truthy (?m !! "service")] => set (s3 := m)
  end.
  assert (H3 : s3 !! "service" = from_url w "service"
               /\ s3 !! "redirectTo" = from_url w "redirectTo"
               /\ s3 !! "context" = from_url w "context"
               /\ forall k, k <> "service" -> k <> "redirectTo" -> k <> "context" ->
                             s3 !! k = Session w !! k).
  { subst s3.
    destruct (from_url w "service"), (from_url w "redirectTo"), (from_url w "context");
      repeat split; intros; simplify_map_eq; reflexivity. }
  destruct H3 as (Hs & Hr & Hc & Hk). rewrite Hs.
  pose proof (from_url_truthy w "service") as Ht.
  destruct (from_url w "service") as [vs|] eqn:Es.
  - assert (Ht' : session_truthy (Some vs) = true).
    { unfold from_url in Es. destruct (truthy (location_search w "service")) eqn:E;
        [now rewrite Ht|discriminate]. }
    rewrite Ht'. simpl. exists s3. split; [reflexivity|]. auto.
  - simpl. rewrite setSessionValueFromUrl_run.
    rewrite ?from_url_with_Session.
    cbn [session_name String.eqb]. eexists. split; [reflexivity|].
    destruct (from_url w "client_id");
      repeat split; intros; simplify_map_eq; auto.
Qed.

(** X4: after [initSessionFromUrl()], the session's [redirectTo] and
    [context] are what the URL holds (absent when the parameter is missing
    or empty), [service] is the URL's [service] parameter or, failing
    that, its [client_id]; values left from before do not survive, and no
    other session name is touched. *)
Theorem initSessionFromUrl_session (w : world) :
  let w' := snd (initSessionFromUrl w) in
  fst (initSessionFromUrl w) = Normal tt /\
  Session w' !! "redirectTo" = from_url w "redirectTo" /\
  Session w' !! "context" = from_url w "context" /\
  Session w' !! "service" = match from_url w "service" with
                            | Some v => Some v
                            | None => from_url w "client_id"
                            end /\
  (forall k, k <> "service" -> k <> "redirectTo" -> k <> "context" ->
             Session w' !! k = Session w !! k).
Proof.
  destruct (initSessionFromUrl_run w) as (s & -> & H). exact (conj eq_refl H).
Qed.

(** X5: [initSessionFromUrl()] is idempotent: run again on the same URL it
    changes nothing. *)
Theorem initSessionFromUrl_idempotent (w : world) :
  initSessionFromUrl (snd (initSessionFromUrl w))
  = (Normal tt, snd (initSessionFromUrl w)).
Proof.
  destruct (initSessionFromUrl_run w) as (s & -> & Hr & Hc & Hs & Hk).
  cbn [snd].
  destruct (initSessionFromUrl_run (with_Session (fun _ => s) w))
    as (s' & -> & Hr' & Hc' & Hs' & Hk').
  rewrite !from_url_with_Session in *.
  assert (E : s' = s).
  { apply map_eq. intros k.
    destruct (decide (k = "service")) as [->|N1]; [congruence|].
    destruct (decide (k = "redirectTo")) as [->|N2]; [congruence|].
    destruct (decide (k = "context")) as [->|N3]; [congruence|].
    now rewrite Hk'. }
  now rewrite E.
Qed.

Example initSessionFromUrl_client_id :
  let w := new_Start (query [("client_id", "dcdb5ae7add825d2"); ("context", "")])
             {["service" := SValue (VStr "sync")]} None in
  Session (snd (initSessionFromUrl w)) =
  {["service" := SValue (VStr "dcdb5ae7add825d2")]}.
Proof. vm_compute. reflexivity. Qed.

(** ** The channel and the first route *)

Lemma strict_equals_string_spec v s : strict_equals_string v s = true <-> v = VStr s.
Proof.
  destruct v; simpl; try (split; [discriminate|intros [=]]).
  rewrite String.eqb_eq. split; [now intros ->|now intros [= ->]].
Qed.

(** X6: [allResourcesReady()] creates and initialises exactly one channel
    (the desktop channel exactly when the [context] parameter is the
    desktop context, the web channel otherwise) and stores it in the
    session; once the cookie check answers, history is started exactly
    once, silently exactly when cookies are disabled, and the router
    navigates to [cookies_disabled] exactly in that case; when the cookie
    check fails or never answers, history is not started. *)
Theorem allResourcesReady_first_route
    (FX_DESKTOP_CONTEXT : string) (areCookiesEnabled : promise value)
    (w : world) (r : router) :
  _router w = Some r ->
  let ch := channel_for FX_DESKTOP_CONTEXT w in
  let w' := snd (allResourcesReady FX_DESKTOP_CONTEXT areCookiesEnabled w) in
  (ch = FxDesktopChannel <-> location_search w "context" = VStr FX_DESKTOP_CONTEXT) /\
  Session w' = <["channel" := SChannel ch]> (Session w) /\
  match areCookiesEnabled with
  | Fulfilled enabled =>
      fst (allResourcesReady FX_DESKTOP_CONTEXT areCookiesEnabled w)
        = Normal (Fulfilled VUndefined) /\
      trace w' =
        trace w ++
        [ChannelInit ch; ConfigLoaderAreCookiesEnabled;
         HistoryStart true (negb (truthy enabled))] ++
        (if truthy enabled then [] else [RouterNavigate r "cookies_disabled"])
  | Rejected e =>
      fst (allResourcesReady FX_DESKTOP_CONTEXT areCookiesEnabled w)
        = Normal (Rejected e) /\
      trace w' = trace w ++ [ChannelInit ch; ConfigLoaderAreCookiesEnabled]
  | Pending =>
      fst (allResourcesReady FX_DESKTOP_CONTEXT areCookiesEnabled w) = Normal Pending /\
      trace w' = trace w ++ [ChannelInit ch; ConfigLoaderAreCookiesEnabled]
  end.
Proof.
  intros Hr ch w'. subst ch w'. split.
  - unfold channel_for. rewrite <- strict_equals_string_spec.
    destruct (strict_equals_string _ _); split; congruence.
  - destruct w as [search session r0 wr wt cfg m tr]. cbn [_router] in Hr. subst r0.
    destruct areCookiesEnabled as [enabled|e|]; start_eval.
    + destruct (truthy enabled); cbv [negb]; start_eval;
        rewrite <- ?app_assoc; auto.
    + rewrite <- ?app_assoc. auto.
    + rewrite <- ?app_assoc. auto.
Qed.

Lemma allResourcesReady_first_route_witness :
  let w := new_Start (query [("context", "fx_desktop_v1")]) ∅ (Some OptionsRouter) in
  let w' := snd (allResourcesReady "fx_desktop_v1" (Fulfilled (VBool false)) w) in
  Session w' = <["channel" := SChannel FxDesktopChannel]> (Session w) /\
  trace w' = [ChannelInit FxDesktopChannel; ConfigLoaderAreCookiesEnabled;
              HistoryStart true true; RouterNavigate OptionsRouter "cookies_disabled"].
Proof.
  intros w w'.
  destruct (allResourcesReady_first_route "fx_desktop_v1" (Fulfilled (VBool false))
              w OptionsRouter eq_refl) as (_ & H1 & _ & H2).
  exact (conj H1 H2).
Defined.

(** ** [startApp] *)

Lemma history_starts_app tr evs :
  history_starts (tr ++ evs) = history_starts tr ++ history_starts evs.
Proof. unfold history_starts. apply flat_map_app. Qed.

Lemma channels_initialized_app tr evs :
  channels_initialized (tr ++ evs) = channels_initialized tr ++ channels_initialized evs.
Proof. unfold channels_initialized. apply flat_map_app. Qed.

Lemma navigations_app tr evs :
  navigations (tr ++ evs) = navigations tr ++ navigations evs.
Proof. unfold navigations. apply flat_map_app. Qed.

Ltac observe :=
  rewrite ?history_starts_app, ?channels_initialized_app, ?navigations_app;
  cbn [history_starts channels_initialized navigations flat_map app];
  rewrite ?app_nil_r.

(** The configuration step starts no history and creates no channel, and
    its promise is fulfilled only if the configuration was fetched. *)
Lemma initializeConfig_quiet sampled config_fetch w :
  exists p,
    fst (initializeConfig config_fetch sampled w) = Normal p /\
    (forall v, p = Fulfilled v -> exists c, config_fetch = Fulfilled c) /\
    history_starts (trace (snd (initializeConfig config_fetch sampled w)))
      = history_starts (trace w) /\
    channels_initialized (trace (snd (initializeConfig config_fetch sampled w)))
      = channels_initialized (trace w).
Proof.
  destruct w.
  destruct config_fetch as [c|e|]; [destruct c|..]; start_eval;
    (eexists; split; [reflexivity|]);
    (split; [intros v [=]; eauto|]); observe; auto.
Qed.

Lemma initializeL10n_run translator_fetch w :
  fst (initializeL10n translator_fetch w) = Normal translator_fetch /\
  history_starts (trace (snd (initializeL10n translator_fetch w)))
    = history_starts (trace w) /\
  channels_initialized (trace (snd (initializeL10n translator_fetch w)))
    = channels_initialized (trace w).
Proof. destruct w. start_eval. observe. auto. Qed.

Lemma initSessionFromUrl_trace w : trace (snd (initSessionFromUrl w)) = trace w.
Proof. now destruct (initSessionFromUrl_run w) as (s & -> & _). Qed.

Lemma p_all_fulfilled a b v :
  p_all a b = Fulfilled v -> exists x y, a = Fulfilled x /\ b = Fulfilled y.
Proof. destruct a, b; simpl; intros [=]; eauto. Qed.

(** X7: [startApp()] starts history only after the configuration and the
    translations were both fetched and the cookie check answered, and it
    creates a channel only after the configuration and the translations
    were both fetched. *)
Theorem startApp_waits_for_resources
    (FX_DESKTOP_CONTEXT : string)
    (config_fetch translator_fetch areCookiesEnabled : promise value)
    (isMetricsCollectionEnabled : value -> bool) (w : world) :
  let w' := snd (startApp FX_DESKTOP_CONTEXT config_fetch translator_fetch
                   areCookiesEnabled isMetricsCollectionEnabled w) in
  (history_starts (trace w') <> history_starts (trace w) ->
     exists c t enabled,
       config_fetch = Fulfilled c /\ translator_fetch = Fulfilled t /\
       areCookiesEnabled = Fulfilled enabled) /\
  (channels_initialized (trace w') <> channels_initialized (trace w) ->
     exists c t, config_fetch = Fulfilled c /\ translator_fetch = Fulfilled t).
Proof.
  intros w'. subst w'. unfold startApp, bind.
  destruct (initSessionFromUrl w) as [[[]|e0] w0] eqn:E0;
    [|destruct (initSessionFromUrl_run w) as (s & Hs & _); congruence].
  assert (Ht0 : trace w0 = trace w)
    by (rewrite <- (initSessionFromUrl_trace w), E0; reflexivity).
  destruct (initializeConfig_quiet isMetricsCollectionEnabled config_fetch w0)
    as (pc & Hpc & Hfc & Hh1 & Hc1).
  destruct (initializeConfig config_fetch isMetricsCollectionEnabled w0) as [c1 w1].
  simpl in Hpc, Hh1, Hc1. subst c1.
  destruct (initializeL10n_run translator_fetch w1) as (Hpl & Hh2 & Hc2).
  destruct (initializeL10n translator_fetch w1) as [c2 w2].
  simpl in Hpl, Hh2, Hc2. subst c2.
  rewrite <- Ht0, <- Hh1, <- Hh2, <- Hc1, <- Hc2.
  destruct (p_all pc translator_fetch) as [v|e|] eqn:Ep; cbn [promise_then];
    [|split; intros H; now destruct H..].
  destruct (p_all_fulfilled _ _ _ Ep) as (x & y & -> & ->).
  destruct (Hfc x eq_refl) as [c ->].
  destruct areCookiesEnabled as [enabled|e|].
  - split; intros _; eauto 10.
  - split; [|eauto]. intros H. exfalso. apply H.
    destruct w2. start_eval. observe. reflexivity.
  - split; [|eauto]. intros H. exfalso. apply H.
    destruct w2. start_eval. observe. reflexivity.
Qed.

Lemma startApp_waits_for_resources_witness :
  let w := new_Start (query []) ∅ None in
  exists c t enabled,
    Fulfilled (VObj [("language", VStr "en")]) = Fulfilled c /\
    Fulfilled (VObj []) = Fulfilled t /\
    Fulfilled (VBool true) = @Fulfilled value enabled.
Proof.
  intros w.
  refine (proj1 (startApp_waits_for_resources "fx_desktop_v1"
                   (Fulfilled (VObj [("language", VStr "en")])) (Fulfilled (VObj []))
                   (Fulfilled (VBool true)) (fun _ => true) w) _).
  vm_compute. discriminate.
Defined.

Lemma startApp_succeeds_run
    (FX_DESKTOP_CONTEXT : string) (fields : list (string * value))
    (translations enabled : value)
    (isMetricsCollectionEnabled : value -> bool) (w : world) :
  let metrics :=
    createMetrics isMetricsCollectionEnabled
      (default VUndefined (field_lookup "metricsSampleRate" fields)) in
  let r := match _router w with Some r => r | None => NewRouter metrics end in
  exists w',
    startApp FX_DESKTOP_CONTEXT (Fulfilled (VObj fields)) (Fulfilled translations)
      (Fulfilled enabled) isMetricsCollectionEnabled w
    = (Normal (Fulfilled VUndefined), w') /\
    _router w' = Some r /\
    window_router w' = Some r /\
    _metrics w' = Some metrics /\
    history_starts (trace w')
      = history_starts (trace w) ++ [(true, negb (truthy enabled))] /\
    navigations (trace w')
      = navigations (trace w) ++ (if truthy enabled then [] else ["cookies_disabled"]) /\
    channels_initialized (trace w')
      = channels_initialized (trace w) ++ [channel_for FX_DESKTOP_CONTEXT w] /\
    Session w' !! "channel" = Some (SChannel (channel_for FX_DESKTOP_CONTEXT w)) /\
    Session w' !! "config" = Some (SValue (VObj fields)) /\
    Session w' !! "language"
      = Some (SValue (default VUndefined (field_lookup "language" fields))).
Proof.
  intros metrics r. subst metrics r.
  destruct (initSessionFromUrl_run w) as (s & Hs & _).
  destruct w as [search session [r0|] wr wt cfg m tr];
    unfold startApp; unfold bind at 1; rewrite Hs; start_eval;
    destruct (truthy enabled); cbv [negb]; start_eval;
    (eexists; split; [reflexivity|]); start_eval; observe;
    repeat split;
    rewrite ?lookup_insert_eq; try reflexivity;
    rewrite lookup_insert_ne by discriminate;
    rewrite ?lookup_insert_eq; try reflexivity;
    rewrite lookup_insert_ne by discriminate;
    rewrite ?lookup_insert_eq; reflexivity.
Qed.

(** X8: when the configuration (an object), the translations and the
    cookie check all arrive, [startApp()] resolves; the router is the one
    passed in the options if there was one and otherwise a new one built
    on the metrics just created, and it is the one published on the
    window, so the navigation to [cookies_disabled] always has a router;
    history is started exactly once, silently exactly when cookies are
    disabled; exactly one channel is initialised and stored in the
    session; and the session holds the configuration and its language. *)
Theorem startApp_succeeds
    (FX_DESKTOP_CONTEXT : string) (fields : list (string * value))
    (translations enabled : value)
    (isMetricsCollectionEnabled : value -> bool) (w : world) :
  let config := VObj fields in
  let run := startApp FX_DESKTOP_CONTEXT (Fulfilled config) (Fulfilled translations)
               (Fulfilled enabled) isMetricsCollectionEnabled w in
  let metrics :=
    createMetrics isMetricsCollectionEnabled
      (default VUndefined (field_lookup "metricsSampleRate" fields)) in
  let r := match _router w with Some r => r | None => NewRouter metrics end in
  fst run = Normal (Fulfilled VUndefined) /\
  _router (snd run) = Some r /\
  window_router (snd run) = Some r /\
  _metrics (snd run) = Some metrics /\
  history_starts (trace (snd run))
    = history_starts (trace w) ++ [(true, negb (truthy enabled))] /\
  navigations (trace (snd run))
    = navigations (trace w) ++ (if truthy enabled then [] else ["cookies_disabled"]) /\
  channels_initialized (trace (snd run))
    = channels_initialized (trace w) ++ [channel_for FX_DESKTOP_CONTEXT w] /\
  Session (snd run) !! "channel" = Some (SChannel (channel_for FX_DESKTOP_CONTEXT w)) /\
  Session (snd run) !! "config" = Some (SValue config) /\
  Session (snd run) !! "language"
    = Some (SValue (default VUndefined (field_lookup "language" fields))).
Proof.
  intros config run metrics r. subst config run metrics r.
  destruct (startApp_succeeds_run FX_DESKTOP_CONTEXT fields translations enabled
              isMetricsCollectionEnabled w) as (w' & -> & H).
  exact (conj eq_refl H).
Qed.

Lemma resource_fetches_app tr evs :
  resource_fetches (tr ++ evs) = resource_fetches tr ++ resource_fetches evs.
Proof. unfold resource_fetches. apply flat_map_app. Qed.

Ltac observe_fetches :=
  rewrite ?resource_fetches_app; cbn [resource_fetches flat_map app];
  rewrite ?app_nil_r, <- ?app_assoc.

Lemma initializeConfig_fetches sampled config_fetch w :
  resource_fetches (trace (snd (initializeConfig config_fetch sampled w)))
  = resource_fetches (trace w) ++ [ConfigLoaderFetch].
Proof.
  destruct w.
  destruct config_fetch as [c|e|]; [destruct c|..]; start_eval; observe_fetches;
    reflexivity.
Qed.

Lemma initializeL10n_fetches translator_fetch w :
  resource_fetches (trace (snd (initializeL10n translator_fetch w)))
  = resource_fetches (trace w) ++ [TranslatorFetch] /\
  window_translator (snd (initializeL10n translator_fetch w)) = true.
Proof. destruct w. start_eval. observe_fetches. auto. Qed.

Lemma allResourcesReady_fetches FX cookies w :
  resource_fetches (trace (snd (allResourcesReady FX cookies w)))
  = resource_fetches (trace w) /\
  window_translator (snd (allResourcesReady FX cookies w)) = window_translator w.
Proof.
  destruct w as [search session r0 wr wt cfg m tr].
  destruct cookies as [enabled|e|]; start_eval;
    [destruct (truthy enabled); cbv [negb]; [|destruct r0]; start_eval|..];
    observe_fetches; auto.
Qed.

(** X19: [startApp()] issues the fetch of the configuration and the fetch
    of the translations, in that order and exactly once each, whatever
    either of them answers: a failing configuration does not keep the
    translations from being requested, and the translator is published on
    the window. *)
Theorem startApp_fetches_both_resources
    (FX_DESKTOP_CONTEXT : string)
    (config_fetch translator_fetch areCookiesEnabled : promise value)
    (isMetricsCollectionEnabled : value -> bool) (w : world) :
  let w' := snd (startApp FX_DESKTOP_CONTEXT config_fetch translator_fetch
                   areCookiesEnabled isMetricsCollectionEnabled w) in
  resource_fetches (trace w')
    = resource_fetches (trace w) ++ [ConfigLoaderFetch; TranslatorFetch] /\
  window_translator w' = true.
Proof.
  intros w'. subst w'. unfold startApp, bind.
  destruct (initSessionFromUrl w) as [[[]|e0] w0] eqn:E0;
    [|destruct (initSessionFromUrl_run w) as (s & Hs & _); congruence].
  assert (Ht0 : trace w0 = trace w)
    by (rewrite <- (initSessionFromUrl_trace w), E0; reflexivity).
  destruct (initializeConfig_quiet isMetricsCollectionEnabled config_fetch w0)
    as (pc & Hpc & _).
  pose proof (initializeConfig_fetches isMetricsCollectionEnabled config_fetch w0) as Hf1.
  destruct (initializeConfig config_fetch isMetricsCollectionEnabled w0) as [c1 w1].
  cbn [fst snd] in Hpc, Hf1. subst c1.
  destruct (initializeL10n_run translator_fetch w1) as (Hpl & _).
  destruct (initializeL10n_fetches translator_fetch w1) as (Hf2 & Hw2).
  destruct (initializeL10n translator_fetch w1) as [c2 w2].
  cbn [fst snd] in Hpl, Hf2, Hw2. subst c2.
  assert (Hall : resource_fetches (trace w2)
                 = resource_fetches (trace w) ++ [ConfigLoaderFetch; TranslatorFetch])
    by (rewrite Hf2, Hf1, Ht0, <- app_assoc; reflexivity).
  destruct (p_all pc translator_fetch) as [v|e|]; cbn [promise_then]; auto.
  destruct (allResourcesReady_fetches FX_DESKTOP_CONTEXT areCookiesEnabled w2) as (Hf3 & Hw3).
  unfold promise_job.
  destruct (allResourcesReady FX_DESKTOP_CONTEXT areCookiesEnabled w2) as [[p|e] w3];
    cbn [fst snd] in *; rewrite Hf3, Hw3; auto.
Qed.

End StartAppFacts.
